(** * next-api-rate-limit: the two-tier rate-limit wrapper [withRateLimit]

    A shallow embedding of [src/index.ts].  The wrapper keeps a bounded
    least-recently-used cache of per-key rate-limit states in front of a
    remote sliding-window counter.  Everything the TypeScript code reads
    from its environment is an explicit input here:

    - the value returned by [getKey(req)],
    - the readings of [Date.now()] taken while one request is served,
    - the reply of [ratelimit.limit(key)] (or the fact that it throws),
    - the behaviour of the wrapped [handler].

    JavaScript numbers that hold counts and millisecond timestamps are
    modelled as [Z]; one request is served at a time. *)

From Stdlib Require Import ZArith List Bool String Lia.
Import ListNotations.
Local Open Scope string_scope.
Local Open Scope Z_scope.

(** ** Keys

    [getKey] is typed [(req) => string], and the wrapper uses its result
    without awaiting it.  At run time the result is therefore either a string
    or, for an [async] extractor, the promise object itself. *)

Inductive Key : Type :=
| KString (s : string)
| KPromise (oid : nat) (settled : string).

(** JavaScript truthiness of the value tested by [if (!key)]: only the empty
    string is falsy, every object (a promise included) is truthy. *)
Definition truthy (k : Key) : bool :=
  match k with
  | KString s => negb (s =? "")%string
  | KPromise _ _ => true
  end.

(** Key equality of a JavaScript [Map]: strings by content, objects by
    identity. *)
Definition Key_eqb (a b : Key) : bool :=
  match a, b with
  | KString s, KString t => (s =? t)%string
  | KPromise i _, KPromise j _ => Nat.eqb i j
  | _, _ => false
  end.

(** ** Data model *)

Record RateLimitState : Type := mkState { remaining : Z; reset : Z }.

Inductive Provider : Type := upstash | vercelKV.

Record RateLimitOptions : Type := mkOptions {
  timeframe : Z;
  requestsLimit : Z;
  disableLRU : bool;
  provider : Provider;
  errorMessage : option string
}.

(** [Partial<RateLimitOptions>]: every field may be left out. *)
Record PartialOptions : Type := mkPartial {
  p_timeframe : option Z;
  p_requestsLimit : option Z;
  p_disableLRU : option bool;
  p_provider : option Provider;
  p_errorMessage : option string
}.

Definition withDefault {A : Type} (d : A) (o : option A) : A :=
  match o with Some a => a | None => d end.

(** [RateLimitOptionsSchema.parse]: the defaults of the schema, and the two
    [positive()] checks; [None] stands for the thrown [ZodError]. *)
Definition RateLimitOptionsSchema_parse (o : PartialOptions) : option RateLimitOptions :=
  let tf := withDefault 60 (p_timeframe o) in
  let rl := withDefault 5 (p_requestsLimit o) in
  if (0 <? tf) && (0 <? rl)
  then Some (mkOptions tf rl (withDefault false (p_disableLRU o))
                       (withDefault upstash (p_provider o)) (p_errorMessage o))
  else None.

(** ** Responses *)

(** The text sent under the [error] field.  The default rate-limit message is
    a template string over two numbers; it is kept symbolic. *)
Inductive Message : Type :=
| MsgText (s : string)
| MsgTooManyRequests (limit : Z) (seconds : Z).

(** What the promise returned by the wrapper settles to. *)
Inductive Outcome : Type :=
| Responded (status : Z) (error : Message)   (* res.status(s).json({error}) *)
| Forwarded                                  (* the handler's own result *)
| Rejected.                                  (* the handler's exception escapes *)

(** [errorMessage || defaultErrorMessage]: an empty override is falsy. *)
Definition getErrorMessage (cfg : RateLimitOptions) : Message :=
  match errorMessage cfg with
  | Some s => if (s =? "")%string
              then MsgTooManyRequests (requestsLimit cfg) (timeframe cfg)
              else MsgText s
  | None => MsgTooManyRequests (requestsLimit cfg) (timeframe cfg)
  end.

(** ** The bounded TTL cache *)

Record Node : Type := mkNode {
  nkey : Key;
  nvalue : RateLimitState;
  expiresAt : Z
}.

(** Modelled from the spec: the [LRUCache] class of the [typescript-lru-cache]
    package, which the wrapper imports and which is not among the sources.
    Section 4.1 of the specification gives its contract: [get] returns the
    stored state when present and not expired and promotes it, an expired
    entry is dropped; [set] replaces the entry of the key, expiring at
    [now + ttl], does nothing for [ttl <= 0], and evicts the least recently
    used entry beyond the capacity.  The list is ordered from the most to the
    least recently used entry. *)
Definition Cache : Type := list Node.

Definition maxSize : nat := 500.

Definition isExpired (n : Node) (now : Z) : bool := expiresAt n <? now.

Fixpoint cache_find (c : Cache) (k : Key) : option Node :=
  match c with
  | [] => None
  | n :: rest => if Key_eqb (nkey n) k then Some n else cache_find rest k
  end.

Definition cache_remove (c : Cache) (k : Key) : Cache :=
  filter (fun n => negb (Key_eqb (nkey n) k)) c.

Definition cache_get (c : Cache) (k : Key) (now : Z) : option RateLimitState * Cache :=
  match cache_find c k with
  | None => (None, c)
  | Some n =>
      if isExpired n now then (None, cache_remove c k)
      else (Some (nvalue n), n :: cache_remove c k)
  end.

Definition cache_set (c : Cache) (k : Key) (v : RateLimitState) (ttl now : Z) : Cache :=
  if ttl <=? 0 then c
  else firstn maxSize (mkNode k v (now + ttl) :: cache_remove c k).

(** The state a reader would obtain for [k] at time [now], without the
    bookkeeping of [get]. *)
Definition cache_live (c : Cache) (k : Key) (now : Z) : option RateLimitState :=
  match cache_find c k with
  | Some n => if isExpired n now then None else Some (nvalue n)
  | None => None
  end.

(** ** Inputs of one request *)

(** The readings of [Date.now()], in program order: inside [cache.get], in
    the test [cachedState.reset > Date.now()], in [updateCacheAndProceed]
    and inside [cache.set]. *)
Record Times : Type := mkTimes { t_get : Z; t_check : Z; t_ttl : Z; t_set : Z }.

Definition atTime (t : Z) : Times := mkTimes t t t t.

(** The [pending] field of the remote reply: absent, a promise that resolves,
    or one that rejects. *)
Inductive Pending : Type := NoPending | PendingResolves | PendingRejects.

Record LimitResponse : Type := mkLimit {
  success : bool;
  l_remaining : Z;
  l_reset : Z;
  pending : Pending
}.

Inductive RemoteReply : Type :=
| RemoteThrows
| RemoteReturns (r : LimitResponse).

(** The wrapped handler either throws while it is called, or returns; what it
    returns may be a promise that later rejects. *)
Inductive HandlerBehaviour : Type := Completes | ThrowsSync | RejectsAsync.

Inductive Returned : Type := Settled | RejectingPromise.
Inductive CallResult : Type := Value (v : Returned) | Thrown.

(** What the call [handler(req, res)] evaluates to. *)
Definition callResult (h : HandlerBehaviour) : CallResult :=
  match h with
  | Completes => Value Settled
  | ThrowsSync => Thrown
  | RejectsAsync => Value RejectingPromise
  end.

Record Request : Type := mkRequest {
  rkey : Key;
  times : Times;
  remote : RemoteReply;
  handlerB : HandlerBehaviour
}.

(** ** Effects

    The wrapper mutates the cache and talks to the outside; every such
    action is logged. *)
Inductive Event : Type :=
| EvCacheGet (k : Key)
| EvCacheSet (k : Key) (v : RateLimitState) (ttl : Z)
| EvRemote (k : Key)
| EvHandler
| EvConsoleError (k : Key).

Definition M (A : Type) : Type := Cache -> A * Cache * list Event.

Definition ret {A : Type} (a : A) : M A := fun c => (a, c, []).

Definition bind {A B : Type} (m : M A) (f : A -> M B) : M B :=
  fun c =>
    let '(a, c1, l1) := m c in
    let '(b, c2, l2) := f a c1 in
    (b, c2, (l1 ++ l2)%list).

Notation "x <- m ;; f" := (bind m (fun x => f))
  (at level 61, m at next level, right associativity).
Notation "m ;;; f" := (bind m (fun _ => f))
  (at level 61, right associativity).

Definition emit (e : Event) : M unit := fun c => (tt, c, [e]).

Definition cacheGet (k : Key) (now : Z) : M (option RateLimitState) :=
  fun c => let '(r, c') := cache_get c k now in (r, c', [EvCacheGet k]).

Definition cacheSet (k : Key) (v : RateLimitState) (ttl now : Z) : M unit :=
  fun c => (tt, cache_set c k v ttl now, [EvCacheSet k v ttl]).

(** ** The wrapper *)

Section Wrapper.

Variable cfg : RateLimitOptions.

Definition handleLimitExceeded (k : Key) : M Outcome :=
  emit (EvConsoleError k) ;;;
  ret (Responded 429 (getErrorMessage cfg)).

Definition handler (h : HandlerBehaviour) : M CallResult :=
  emit EvHandler ;;;
  ret (callResult h).

Definition updateCacheAndProceed (h : HandlerBehaviour) (tm : Times)
    (rem rst : Z) (k : Key) : M CallResult :=
  let ttl := rst - t_ttl tm in
  (if 0 <? ttl then cacheSet k (mkState rem rst) ttl (t_set tm) else ret tt) ;;;
  handler h.

(** [return e] in the body of the async function, outside the [try]: a throw
    of [e] and a rejecting promise both reject the wrapper's promise. *)
Definition returnOutsideTry (r : CallResult) : Outcome :=
  match r with
  | Value Settled => Forwarded
  | Value RejectingPromise => Rejected
  | Thrown => Rejected
  end.

(** [return e] inside [try { ... } catch]: a throw of [e] is caught and
    answered with 500; a returned promise is not awaited there, so its
    rejection is not caught. *)
Definition serverError : Outcome := Responded 500 (MsgText "Internal Server Error").

Definition returnInsideTry (r : CallResult) : Outcome :=
  match r with
  | Value Settled => Forwarded
  | Value RejectingPromise => Rejected
  | Thrown => serverError
  end.

(** Lines 69-77: [Some o] when the block returns [o], [None] when control
    falls through to the remote call. *)
Definition localStep (rq : Request) : M (option Outcome) :=
  let k := rkey rq in
  let tm := times rq in
  if disableLRU cfg then ret None
  else
    cachedState <- cacheGet k (t_get tm) ;;
    match cachedState with
    | Some st =>
        if t_check tm <? reset st then
          if 0 <? remaining st then
            r <- updateCacheAndProceed (handlerB rq) tm (remaining st - 1) (reset st) k ;;
            ret (Some (returnOutsideTry r))
          else
            o <- handleLimitExceeded k ;;
            ret (Some o)
        else ret None
    | None => ret None
    end.

(** Lines 79-87. *)
Definition remoteStep (rq : Request) : M Outcome :=
  let k := rkey rq in
  emit (EvRemote k) ;;;
  match remote rq with
  | RemoteThrows => ret serverError
  | RemoteReturns l =>
      match pending l with
      | PendingRejects => ret serverError
      | _ =>
          if negb (success l) then handleLimitExceeded k
          else if negb (disableLRU cfg) then
            r <- updateCacheAndProceed (handlerB rq) (times rq)
                   (l_remaining l - 1) (l_reset l) k ;;
            ret (returnInsideTry r)
          else
            r <- handler (handlerB rq) ;;
            ret (returnInsideTry r)
      end
  end.

Definition keyError : Outcome :=
  Responded 400 (MsgText "Unable to determine rate limit key").

(** The function returned by [withRateLimit]. *)
Definition wrapped (rq : Request) : M Outcome :=
  if negb (truthy (rkey rq)) then ret keyError
  else
    o <- localStep rq ;;
    match o with
    | Some out => ret out
    | None => remoteStep rq
    end.

(** Requests served one after the other on the same cache; each request
    comes back with its own log. *)
Fixpoint serve (rqs : list Request) (c : Cache) : list (Outcome * list Event) * Cache :=
  match rqs with
  | [] => ([], c)
  | rq :: rest =>
      let '(o, c1, l) := wrapped rq c in
      let '(os, c2) := serve rest c1 in
      ((o, l) :: os, c2)
  end.

End Wrapper.

(** ** Construction *)

Record Env : Type := mkEnv {
  UPSTASH_URL : option string;
  UPSTASH_TOKEN : option string;
  KV_REST_API_URL : option string;
  KV_REST_API_TOKEN : option string
}.

(** [!x] for an environment variable: unset or empty. *)
Definition missing (v : option string) : bool :=
  match v with
  | Some s => (s =? "")%string
  | None => true
  end.

Inductive RedisClient : Type :=
| UpstashRedis (url token : string)
| VercelKv.

Inductive ConstructionError : Type :=
| ZodError
| MissingUpstashEnv.   (* Error('Missing Upstash environment variables') *)

Record Wrapper : Type := mkWrapper {
  w_options : RateLimitOptions;
  w_client : RedisClient;
  w_cache : Cache
}.

(** The body of [withRateLimit] up to the [return] of the async function. *)
Definition withRateLimit (options : PartialOptions) (env : Env)
  : ConstructionError + Wrapper :=
  match RateLimitOptionsSchema_parse options with
  | None => inl ZodError
  | Some cfg =>
      match provider cfg with
      | upstash =>
          if missing (UPSTASH_URL env) || missing (UPSTASH_TOKEN env)
          then inl MissingUpstashEnv
          else inr (mkWrapper cfg
                      (UpstashRedis (withDefault "" (UPSTASH_URL env))
                                    (withDefault "" (UPSTASH_TOKEN env)))
                      [])
      | vercelKV => inr (mkWrapper cfg VercelKv [])
      end
  end.

(** ** Observations on a log *)

Definition isRemote (e : Event) : bool :=
  match e with EvRemote _ => true | _ => false end.

Definition isCacheOp (e : Event) : bool :=
  match e with EvCacheGet _ | EvCacheSet _ _ _ => true | _ => false end.

Definition isCacheSet (e : Event) : bool :=
  match e with EvCacheSet _ _ _ => true | _ => false end.

Definition isHandler (e : Event) : bool :=
  match e with EvHandler => true | _ => false end.

Definition count (p : Event -> bool) (l : list Event) : nat := List.length (filter p l).

Definition remoteCalls : list Event -> nat := count isRemote.
Definition cacheOps : list Event -> nat := count isCacheOp.
Definition cacheWrites : list Event -> nat := count isCacheSet.
Definition handlerCalls : list Event -> nat := count isHandler.

(** The lookup of lines 70-71 does not yield a usable state: control reaches
    the remote call. *)
Definition misses (c : Cache) (rq : Request) : Prop :=
  match fst (cache_get c (rkey rq) (t_get (times rq))) with
  | Some st => reset st <= t_check (times rq)
  | None => True
  end.

Definition reachesRemote (cfg : RateLimitOptions) (c : Cache) (rq : Request) : Prop :=
  truthy (rkey rq) = true /\ (disableLRU cfg = true \/ misses c rq).

(** The awaited remote call, or the awaited [pending] promise, throws. *)
Definition remoteFails (rq : Request) : Prop :=
  match remote rq with
  | RemoteThrows => True
  | RemoteReturns l => pending l = PendingRejects
  end.

(** The remote call returns [l] and nothing awaited in the [try] throws. *)
Definition remoteAnswers (rq : Request) (l : LimitResponse) : Prop :=
  remote rq = RemoteReturns l /\ pending l <> PendingRejects.

(** The cache, and the log, at the point where the remote call is made. *)
Definition cacheAtRemote (cfg : RateLimitOptions) (c : Cache) (rq : Request) : Cache :=
  if disableLRU cfg then c else snd (cache_get c (rkey rq) (t_get (times rq))).

Definition logAtRemote (cfg : RateLimitOptions) (rq : Request) : list Event :=
  if disableLRU cfg then [] else [EvCacheGet (rkey rq)].

(** Every write recorded in [log] carries the time to live computed at
    line 60, and that time to live is positive. *)
Definition withinWindow (rq : Request) (log : list Event) : Prop :=
  forall (k : Key) (v : RateLimitState) (ttl : Z),
    In (EvCacheSet k v ttl) log ->
    ttl = reset v - t_ttl (times rq) /\ 0 < ttl.

(** Every entry lives at least as long as the window it describes. *)
Definition cache_ok (c : Cache) : Prop :=
  Forall (fun n => reset (nvalue n) <= expiresAt n) c.

(** A request for key [k] served before the window closing at [R] ends. *)
Definition inWindow (k : Key) (R : Z) (rq : Request) : Prop :=
  rkey rq = k /\
  t_get (times rq) < R /\ t_check (times rq) < R /\ t_ttl (times rq) < R /\
  t_ttl (times rq) <= t_set (times rq).

Definition allowedLocally (r : Outcome * list Event) : Prop :=
  handlerCalls (snd r) = 1%nat /\ remoteCalls (snd r) = 0%nat.

Definition rejectedLocally (cfg : RateLimitOptions) (r : Outcome * list Event) : Prop :=
  fst r = Responded 429 (getErrorMessage cfg) /\
  handlerCalls (snd r) = 0%nat /\ remoteCalls (snd r) = 0%nat.

Definition allowedRemotely (r : Outcome * list Event) : Prop :=
  handlerCalls (snd r) = 1%nat /\ remoteCalls (snd r) = 1%nat.

(** ** The paths through the wrapper

    One constructor per way through lines 65-88, with the conditions under
    which it is taken and the outcome, cache and log it ends with. *)
Inductive Served (cfg : RateLimitOptions) (rq : Request) (c : Cache)
  : Outcome * Cache * list Event -> Prop :=
| SvKeyError :
    truthy (rkey rq) = false ->
    Served cfg rq c (keyError, c, [])
| SvLocalReject (st : RateLimitState) (c1 : Cache) :
    truthy (rkey rq) = true -> disableLRU cfg = false ->
    cache_get c (rkey rq) (t_get (times rq)) = (Some st, c1) ->
    t_check (times rq) < reset st -> remaining st <= 0 ->
    Served cfg rq c
      (Responded 429 (getErrorMessage cfg), c1,
       [EvCacheGet (rkey rq); EvConsoleError (rkey rq)])
| SvLocalHit (st : RateLimitState) (c1 : Cache) :
    truthy (rkey rq) = true -> disableLRU cfg = false ->
    cache_get c (rkey rq) (t_get (times rq)) = (Some st, c1) ->
    t_check (times rq) < reset st -> 0 < remaining st ->
    0 < reset st - t_ttl (times rq) ->
    Served cfg rq c
      (returnOutsideTry (callResult (handlerB rq)),
       cache_set c1 (rkey rq) (mkState (remaining st - 1) (reset st))
         (reset st - t_ttl (times rq)) (t_set (times rq)),
       [EvCacheGet (rkey rq);
        EvCacheSet (rkey rq) (mkState (remaining st - 1) (reset st))
          (reset st - t_ttl (times rq));
        EvHandler])
| SvLocalHitElapsed (st : RateLimitState) (c1 : Cache) :
    truthy (rkey rq) = true -> disableLRU cfg = false ->
    cache_get c (rkey rq) (t_get (times rq)) = (Some st, c1) ->
    t_check (times rq) < reset st -> 0 < remaining st ->
    reset st - t_ttl (times rq) <= 0 ->
    Served cfg rq c
      (returnOutsideTry (callResult (handlerB rq)), c1,
       [EvCacheGet (rkey rq); EvHandler])
| SvRemoteFails :
    reachesRemote cfg c rq -> remoteFails rq ->
    Served cfg rq c
      (serverError, cacheAtRemote cfg c rq,
       (logAtRemote cfg rq ++ [EvRemote (rkey rq)])%list)
| SvRemoteRefused (l : LimitResponse) :
    reachesRemote cfg c rq -> remoteAnswers rq l -> success l = false ->
    Served cfg rq c
      (Responded 429 (getErrorMessage cfg), cacheAtRemote cfg c rq,
       (logAtRemote cfg rq ++ [EvRemote (rkey rq); EvConsoleError (rkey rq)])%list)
| SvRemoteAllowedUncached (l : LimitResponse) :
    reachesRemote cfg c rq -> remoteAnswers rq l -> success l = true ->
    disableLRU cfg = true ->
    Served cfg rq c
      (returnInsideTry (callResult (handlerB rq)), cacheAtRemote cfg c rq,
       (logAtRemote cfg rq ++ [EvRemote (rkey rq); EvHandler])%list)
| SvRemoteAllowedCached (l : LimitResponse) :
    reachesRemote cfg c rq -> remoteAnswers rq l -> success l = true ->
    disableLRU cfg = false -> 0 < l_reset l - t_ttl (times rq) ->
    Served cfg rq c
      (returnInsideTry (callResult (handlerB rq)),
       cache_set (cacheAtRemote cfg c rq) (rkey rq)
         (mkState (l_remaining l - 1) (l_reset l))
         (l_reset l - t_ttl (times rq)) (t_set (times rq)),
       (logAtRemote cfg rq ++
        [EvRemote (rkey rq);
         EvCacheSet (rkey rq) (mkState (l_remaining l - 1) (l_reset l))
           (l_reset l - t_ttl (times rq));
         EvHandler])%list)
| SvRemoteAllowedElapsed (l : LimitResponse) :
    reachesRemote cfg c rq -> remoteAnswers rq l -> success l = true ->
    disableLRU cfg = false -> l_reset l - t_ttl (times rq) <= 0 ->
    Served cfg rq c
      (returnInsideTry (callResult (handlerB rq)), cacheAtRemote cfg c rq,
       (logAtRemote cfg rq ++ [EvRemote (rkey rq); EvHandler])%list).

(** The clock does not run backwards between line 60 and [cache.set]. *)
Definition clockOk (rq : Request) : Prop := t_ttl (times rq) <= t_set (times rq).

(** The remote store reports a count that is not negative. *)
Definition reportsNonnegative (rq : Request) : Prop :=
  match remote rq with
  | RemoteReturns l => 0 <= l_remaining l
  | RemoteThrows => True
  end.

(** The remote store answers the request and refuses it. *)
Definition refused (rq : Request) : Prop :=
  exists l : LimitResponse, remoteAnswers rq l /\ success l = false.

(** ** Sample configurations and requests *)

Definition cfgDefault : RateLimitOptions := mkOptions 60 5 false upstash None.
Definition cfgTwo : RateLimitOptions := mkOptions 60 2 false upstash None.
Definition cfgOne : RateLimitOptions := mkOptions 60 1 false upstash None.
Definition cfgNoCache : RateLimitOptions := mkOptions 60 5 true upstash None.

Definition keyK : Key := KString "k".

(** Remote replies for a window that closes at 61000 ms. *)
Definition allow (r : Z) : RemoteReply := RemoteReturns (mkLimit true r 61000 NoPending).
Definition deny : RemoteReply := RemoteReturns (mkLimit false 0 61000 NoPending).

Definition request (t : Z) (reply : RemoteReply) (h : HandlerBehaviour) : Request :=
  mkRequest keyK (atTime t) reply h.

(** * Properties *)

(** ** Keys *)

Lemma Key_eqb_refl (k : Key) : Key_eqb k k = true.
Proof.
  destruct k as [s | i s]; simpl.
  - apply String.eqb_refl.
  - apply Nat.eqb_refl.
Qed.

Lemma Key_eqb_sym (a b : Key) : Key_eqb a b = Key_eqb b a.
Proof.
  destruct a, b; simpl; try reflexivity.
  - apply String.eqb_sym.
  - apply Nat.eqb_sym.
Qed.

Lemma Key_eqb_trans (a b d : Key) :
  Key_eqb a b = true -> Key_eqb b d = true -> Key_eqb a d = true.
Proof.
  destruct a, b, d; simpl; try discriminate.
  - intros H1 H2. apply String.eqb_eq in H1, H2. subst. apply String.eqb_refl.
  - intros H1 H2. apply Nat.eqb_eq in H1, H2. subst. apply Nat.eqb_refl.
Qed.

Lemma Key_eqb_congr (a b d : Key) :
  Key_eqb a b = true -> Key_eqb d a = Key_eqb d b.
Proof.
  intros Hab.
  destruct (Key_eqb d a) eqn:Hda.
  - symmetry. eapply Key_eqb_trans; eassumption.
  - destruct (Key_eqb d b) eqn:Hdb; [|reflexivity].
    rewrite Key_eqb_sym in Hab.
    rewrite (Key_eqb_trans _ _ _ Hdb Hab) in Hda. discriminate.
Qed.

(** ** The cache *)

Lemma cache_find_key (c : Cache) (k : Key) (n : Node) :
  cache_find c k = Some n -> Key_eqb (nkey n) k = true.
Proof.
  induction c as [|m c IH]; simpl; [discriminate|].
  destruct (Key_eqb (nkey m) k) eqn:E; [|exact IH].
  intros H. injection H as <-. exact E.
Qed.

Lemma cache_find_In (c : Cache) (k : Key) (n : Node) :
  cache_find c k = Some n -> In n c.
Proof.
  induction c as [|m c IH]; simpl; [discriminate|].
  destruct (Key_eqb (nkey m) k); [|auto].
  intros H. injection H as <-. now left.
Qed.

Lemma cache_find_congr (c : Cache) (k k' : Key) :
  Key_eqb k k' = true -> cache_find c k = cache_find c k'.
Proof.
  intros H. induction c as [|m c IH]; simpl; [reflexivity|].
  rewrite (Key_eqb_congr _ _ (nkey m) H), IH. reflexivity.
Qed.

Lemma cache_find_remove_same (c : Cache) (k : Key) :
  cache_find (cache_remove c k) k = None.
Proof.
  induction c as [|m c IH]; simpl; [reflexivity|].
  destruct (Key_eqb (nkey m) k) eqn:E; simpl; [exact IH|].
  now rewrite E.
Qed.

Lemma cache_find_remove_other (c : Cache) (k k' : Key) :
  Key_eqb k k' = false ->
  cache_find (cache_remove c k) k' = cache_find c k'.
Proof.
  intros H. induction c as [|m c IH]; simpl; [reflexivity|].
  destruct (Key_eqb (nkey m) k) eqn:E; simpl.
  - rewrite IH.
    destruct (Key_eqb (nkey m) k') eqn:E'; [|reflexivity].
    rewrite Key_eqb_sym in E.
    rewrite (Key_eqb_trans _ _ _ E E') in H. discriminate.
  - rewrite IH. reflexivity.
Qed.

Lemma maxSize_succ : maxSize = S (pred maxSize).
Proof. reflexivity. Qed.

(** A fresh entry is at the head after [set]: the capacity is not zero, so
    eviction never removes the entry just written. *)
Lemma cache_set_head (c : Cache) (k : Key) (v : RateLimitState) (ttl now : Z) :
  0 < ttl ->
  exists rest, cache_set c k v ttl now = mkNode k v (now + ttl) :: rest.
Proof.
  intros H. unfold cache_set.
  destruct (ttl <=? 0) eqn:E; [apply Z.leb_le in E; lia|].
  rewrite maxSize_succ. simpl firstn. eauto.
Qed.

Lemma cache_find_set_same (c : Cache) (k : Key) (v : RateLimitState) (ttl now : Z) :
  0 < ttl ->
  cache_find (cache_set c k v ttl now) k = Some (mkNode k v (now + ttl)).
Proof.
  intros H. destruct (cache_set_head c k v ttl now H) as [rest ->].
  simpl. now rewrite Key_eqb_refl.
Qed.

Lemma cache_ok_remove (c : Cache) (k : Key) : cache_ok c -> cache_ok (cache_remove c k).
Proof.
  unfold cache_ok, cache_remove. rewrite !Forall_forall.
  intros H n Hn. apply filter_In in Hn. apply H, Hn.
Qed.

Lemma cache_ok_firstn (c : Cache) (m : nat) : cache_ok c -> cache_ok (firstn m c).
Proof.
  unfold cache_ok. revert c.
  induction m as [|m IH]; intros c H; simpl; [constructor|].
  destruct c as [|n c]; [constructor|].
  inversion H; subst. constructor; auto.
Qed.

Lemma cache_ok_get (c : Cache) (k : Key) (now : Z) :
  cache_ok c -> cache_ok (snd (cache_get c k now)).
Proof.
  intros H. unfold cache_get.
  destruct (cache_find c k) as [n|] eqn:E; [|exact H].
  destruct (isExpired n now); simpl.
  - now apply cache_ok_remove.
  - constructor.
    + unfold cache_ok in H. rewrite Forall_forall in H.
      apply H. eapply cache_find_In; eassumption.
    + now apply cache_ok_remove.
Qed.

Lemma cache_ok_set (c : Cache) (k : Key) (v : RateLimitState) (ttl now : Z) :
  cache_ok c -> reset v <= now + ttl -> cache_ok (cache_set c k v ttl now).
Proof.
  intros H Hv. unfold cache_set.
  destruct (ttl <=? 0); [exact H|].
  apply cache_ok_firstn. constructor; [exact Hv|].
  now apply cache_ok_remove.
Qed.

(** In a well-formed cache an entry whose window is still open is returned
    by [get]. *)
Lemma cache_get_live (c : Cache) (k : Key) (n : Node) (now : Z) :
  cache_ok c -> cache_find c k = Some n -> now < reset (nvalue n) ->
  cache_get c k now = (Some (nvalue n), n :: cache_remove c k).
Proof.
  intros Hok Hf Hr. unfold cache_get. rewrite Hf.
  unfold cache_ok in Hok. rewrite Forall_forall in Hok.
  specialize (Hok n (cache_find_In _ _ _ Hf)).
  unfold isExpired.
  destruct (expiresAt n <? now) eqn:E; [apply Z.ltb_lt in E; lia|reflexivity].
Qed.

(** [get] changes the bookkeeping only: what a reader sees afterwards, for
    any key, is what it would have seen before. *)
Lemma cache_get_live_view (c : Cache) (k k' : Key) (now t : Z) :
  now <= t ->
  cache_live (snd (cache_get c k now)) k' t = cache_live c k' t.
Proof.
  intros Ht. unfold cache_get.
  destruct (cache_find c k) as [n|] eqn:E; [|reflexivity].
  destruct (Key_eqb k k') eqn:Ek.
  - pose proof (cache_find_congr c _ _ Ek) as Hc. rewrite E in Hc.
    unfold cache_live at 2. rewrite <- Hc.
    destruct (isExpired n now) eqn:Ex; simpl.
    + unfold cache_live.
      rewrite <- (cache_find_congr _ _ _ Ek), cache_find_remove_same.
      unfold isExpired in *. apply Z.ltb_lt in Ex.
      destruct (expiresAt n <? t) eqn:Ex'; [reflexivity|apply Z.ltb_ge in Ex'; lia].
    + unfold cache_live. simpl.
      rewrite (Key_eqb_trans _ _ _ (cache_find_key _ _ _ E) Ek). reflexivity.
  - destruct (isExpired n now); simpl.
    + unfold cache_live. now rewrite cache_find_remove_other.
    + unfold cache_live. simpl.
      destruct (Key_eqb (nkey n) k') eqn:En.
      * pose proof (cache_find_key _ _ _ E) as Hk.
        rewrite Key_eqb_sym in Hk.
        rewrite (Key_eqb_trans _ _ _ Hk En) in Ek. discriminate.
      * now rewrite cache_find_remove_other.
Qed.

(** ** One request *)

Ltac unfold_wrapper :=
  unfold wrapped, localStep, remoteStep, updateCacheAndProceed, handler,
    handleLimitExceeded, cacheGet, cacheSet, emit, bind, ret;
  cbv zeta.

Lemma wrapped_empty_key (cfg : RateLimitOptions) (rq : Request) (c : Cache) :
  truthy (rkey rq) = false -> wrapped cfg rq c = (keyError, c, []).
Proof.
  intros H. unfold wrapped. rewrite H. reflexivity.
Qed.

Lemma wrapped_reaches_remote (cfg : RateLimitOptions) (rq : Request) (c : Cache) :
  reachesRemote cfg c rq ->
  wrapped cfg rq c =
  let '(o, c2, l) := remoteStep cfg rq (cacheAtRemote cfg c rq) in
  (o, c2, (logAtRemote cfg rq ++ l)%list).
Proof.
  intros [Hk Hr]. unfold wrapped, cacheAtRemote, logAtRemote. rewrite Hk. simpl.
  unfold localStep, bind, cacheGet, ret.
  destruct (disableLRU cfg) eqn:Hd.
  - destruct (remoteStep cfg rq c) as [[o c2] l]. reflexivity.
  - destruct Hr as [Hr|Hr]; [discriminate|].
    unfold misses in Hr.
    destruct (cache_get c (rkey rq) (t_get (times rq))) as [[st|] c1]; simpl in *.
    + destruct (t_check (times rq) <? reset st) eqn:E; [apply Z.ltb_lt in E; lia|].
      destruct (remoteStep cfg rq c1) as [[o c2] l]. reflexivity.
    + destruct (remoteStep cfg rq c1) as [[o c2] l]. reflexivity.
Qed.

Lemma remoteStep_fails (cfg : RateLimitOptions) (rq : Request) (c : Cache) :
  remoteFails rq ->
  remoteStep cfg rq c = (serverError, c, [EvRemote (rkey rq)]).
Proof.
  unfold remoteFails, remoteStep. unfold_wrapper.
  destruct (remote rq) as [|l]; [reflexivity|].
  intros ->. reflexivity.
Qed.

Lemma remoteStep_exceeded (cfg : RateLimitOptions) (rq : Request) (c : Cache)
    (l : LimitResponse) :
  remoteAnswers rq l -> success l = false ->
  remoteStep cfg rq c =
  (Responded 429 (getErrorMessage cfg), c,
   [EvRemote (rkey rq); EvConsoleError (rkey rq)]).
Proof.
  intros [Hr Hp] Hs. unfold remoteStep. unfold_wrapper. rewrite Hr, Hs.
  destruct (pending l); try reflexivity. contradiction.
Qed.

Lemma remoteStep_allowed_cached (cfg : RateLimitOptions) (rq : Request) (c : Cache)
    (l : LimitResponse) :
  remoteAnswers rq l -> success l = true -> disableLRU cfg = false ->
  0 < l_reset l - t_ttl (times rq) ->
  remoteStep cfg rq c =
  (returnInsideTry (callResult (handlerB rq)),
   cache_set c (rkey rq) (mkState (l_remaining l - 1) (l_reset l))
     (l_reset l - t_ttl (times rq)) (t_set (times rq)),
   [EvRemote (rkey rq);
    EvCacheSet (rkey rq) (mkState (l_remaining l - 1) (l_reset l))
      (l_reset l - t_ttl (times rq));
    EvHandler]).
Proof.
  intros [Hr Hp] Hs Hd Ht. unfold remoteStep. unfold_wrapper.
  rewrite Hr, Hs, Hd. apply Z.ltb_lt in Ht. rewrite Ht.
  destruct (pending l); try contradiction; destruct (handlerB rq); reflexivity.
Qed.

Lemma remoteStep_allowed_elapsed (cfg : RateLimitOptions) (rq : Request) (c : Cache)
    (l : LimitResponse) :
  remoteAnswers rq l -> success l = true -> disableLRU cfg = false ->
  l_reset l - t_ttl (times rq) <= 0 ->
  remoteStep cfg rq c =
  (returnInsideTry (callResult (handlerB rq)), c, [EvRemote (rkey rq); EvHandler]).
Proof.
  intros [Hr Hp] Hs Hd Ht. unfold remoteStep. unfold_wrapper.
  rewrite Hr, Hs, Hd. apply Z.ltb_ge in Ht. rewrite Ht.
  destruct (pending l); try contradiction; destruct (handlerB rq); reflexivity.
Qed.

Lemma remoteStep_allowed_uncached (cfg : RateLimitOptions) (rq : Request) (c : Cache)
    (l : LimitResponse) :
  remoteAnswers rq l -> success l = true -> disableLRU cfg = true ->
  remoteStep cfg rq c =
  (returnInsideTry (callResult (handlerB rq)), c, [EvRemote (rkey rq); EvHandler]).
Proof.
  intros [Hr Hp] Hs Hd. unfold remoteStep. unfold_wrapper.
  rewrite Hr, Hs, Hd.
  destruct (pending l); try contradiction; destruct (handlerB rq); reflexivity.
Qed.

(** The local branch, when [get] returns a state whose window is open. *)
Lemma wrapped_local_reject (cfg : RateLimitOptions) (rq : Request) (c c1 : Cache)
    (st : RateLimitState) :
  truthy (rkey rq) = true -> disableLRU cfg = false ->
  cache_get c (rkey rq) (t_get (times rq)) = (Some st, c1) ->
  t_check (times rq) < reset st -> remaining st <= 0 ->
  wrapped cfg rq c =
  (Responded 429 (getErrorMessage cfg), c1,
   [EvCacheGet (rkey rq); EvConsoleError (rkey rq)]).
Proof.
  intros Hk Hd Hg Ht Hr. unfold_wrapper. rewrite Hk, Hd. simpl. rewrite Hg. simpl.
  apply Z.ltb_lt in Ht. rewrite Ht.
  apply Z.ltb_ge in Hr. rewrite Hr. reflexivity.
Qed.

Lemma wrapped_local_hit (cfg : RateLimitOptions) (rq : Request) (c c1 : Cache)
    (st : RateLimitState) :
  truthy (rkey rq) = true -> disableLRU cfg = false ->
  cache_get c (rkey rq) (t_get (times rq)) = (Some st, c1) ->
  t_check (times rq) < reset st -> 0 < remaining st ->
  0 < reset st - t_ttl (times rq) ->
  wrapped cfg rq c =
  (returnOutsideTry (callResult (handlerB rq)),
   cache_set c1 (rkey rq) (mkState (remaining st - 1) (reset st))
     (reset st - t_ttl (times rq)) (t_set (times rq)),
   [EvCacheGet (rkey rq);
    EvCacheSet (rkey rq) (mkState (remaining st - 1) (reset st))
      (reset st - t_ttl (times rq));
    EvHandler]).
Proof.
  intros Hk Hd Hg Ht Hr Hl. unfold_wrapper. rewrite Hk, Hd. simpl. rewrite Hg. simpl.
  apply Z.ltb_lt in Ht, Hr, Hl. rewrite Ht, Hr, Hl.
  destruct (handlerB rq); reflexivity.
Qed.

Lemma wrapped_local_hit_elapsed (cfg : RateLimitOptions) (rq : Request) (c c1 : Cache)
    (st : RateLimitState) :
  truthy (rkey rq) = true -> disableLRU cfg = false ->
  cache_get c (rkey rq) (t_get (times rq)) = (Some st, c1) ->
  t_check (times rq) < reset st -> 0 < remaining st ->
  reset st - t_ttl (times rq) <= 0 ->
  wrapped cfg rq c =
  (returnOutsideTry (callResult (handlerB rq)), c1,
   [EvCacheGet (rkey rq); EvHandler]).
Proof.
  intros Hk Hd Hg Ht Hr Hl. unfold_wrapper. rewrite Hk, Hd. simpl. rewrite Hg. simpl.
  apply Z.ltb_lt in Ht, Hr. apply Z.ltb_ge in Hl. rewrite Ht, Hr, Hl.
  destruct (handlerB rq); reflexivity.
Qed.

Lemma cacheAtRemote_ok (cfg : RateLimitOptions) (c : Cache) (rq : Request) :
  cache_ok c -> cache_ok (cacheAtRemote cfg c rq).
Proof.
  intros H. unfold cacheAtRemote.
  destruct (disableLRU cfg); [exact H|now apply cache_ok_get].
Qed.

Lemma cacheAtRemote_view (cfg : RateLimitOptions) (c : Cache) (rq : Request)
    (k' : Key) (t : Z) :
  t_get (times rq) <= t ->
  cache_live (cacheAtRemote cfg c rq) k' t = cache_live c k' t.
Proof.
  intros H. unfold cacheAtRemote.
  destruct (disableLRU cfg); [reflexivity|now apply cache_get_live_view].
Qed.

Lemma cacheAtRemote_absent (cfg : RateLimitOptions) (c : Cache) (rq : Request) :
  cache_find c (rkey rq) = None -> cacheAtRemote cfg c rq = c.
Proof.
  intros H. unfold cacheAtRemote, cache_get. rewrite H.
  destruct (disableLRU cfg); reflexivity.
Qed.

(** ** The cache invariant

    Every cache that the wrapper can reach from the empty one satisfies
    [cache_ok], as long as the clock does not run backwards between the
    reading at line 60 and the one taken inside [cache.set]. *)

Lemma remoteStep_preserves_cache_ok (cfg : RateLimitOptions) (rq : Request)
    (c : Cache) :
  cache_ok c -> t_ttl (times rq) <= t_set (times rq) ->
  cache_ok (snd (fst (remoteStep cfg rq c))).
Proof.
  intros Hok Hclock.
  destruct (remote rq) as [|l] eqn:Hr.
  { rewrite remoteStep_fails by (unfold remoteFails; now rewrite Hr). exact Hok. }
  destruct (pending l) eqn:Hp;
    try (rewrite remoteStep_fails by (unfold remoteFails; now rewrite Hr);
         exact Hok).
  all: assert (Hans : remoteAnswers rq l)
    by (split; [exact Hr|rewrite Hp; discriminate]).
  all: destruct (success l) eqn:Hs;
    [|rewrite (remoteStep_exceeded cfg rq c l Hans Hs); exact Hok].
  all: destruct (disableLRU cfg) eqn:Hd;
    [rewrite (remoteStep_allowed_uncached cfg rq c l Hans Hs Hd); exact Hok|].
  all: destruct (Z_lt_le_dec 0 (l_reset l - t_ttl (times rq))) as [Ht|Ht];
    [rewrite (remoteStep_allowed_cached cfg rq c l Hans Hs Hd Ht)
    |rewrite (remoteStep_allowed_elapsed cfg rq c l Hans Hs Hd Ht); exact Hok].
  all: cbn [fst snd]; apply cache_ok_set; [exact Hok|cbn [reset]; lia].
Qed.

Lemma wrapped_preserves_cache_ok (cfg : RateLimitOptions) (rq : Request) (c : Cache) :
  cache_ok c -> t_ttl (times rq) <= t_set (times rq) ->
  cache_ok (snd (fst (wrapped cfg rq c))).
Proof.
  intros Hok Hclock.
  destruct (truthy (rkey rq)) eqn:Hk.
  2: { rewrite (wrapped_empty_key cfg rq c Hk). exact Hok. }
  assert (Hremote : reachesRemote cfg c rq -> cache_ok (snd (fst (wrapped cfg rq c)))).
  { intros Hreach. rewrite (wrapped_reaches_remote cfg rq c Hreach).
    pose proof (remoteStep_preserves_cache_ok cfg rq (cacheAtRemote cfg c rq)
                  (cacheAtRemote_ok cfg c rq Hok) Hclock) as H.
    destruct (remoteStep cfg rq (cacheAtRemote cfg c rq)) as [[o c2] l].
    exact H. }
  destruct (disableLRU cfg) eqn:Hd.
  { apply Hremote. split; [exact Hk|now left]. }
  pose proof (cache_ok_get c (rkey rq) (t_get (times rq)) Hok) as Hok1.
  destruct (cache_get c (rkey rq) (t_get (times rq))) as [[st|] c1] eqn:Hg.
  2: { apply Hremote. split; [exact Hk|right]. unfold misses. now rewrite Hg. }
  destruct (Z_lt_le_dec (t_check (times rq)) (reset st)) as [Hc|Hc].
  2: { apply Hremote. split; [exact Hk|right]. unfold misses. now rewrite Hg. }
  destruct (Z_lt_le_dec 0 (remaining st)) as [Hr|Hr].
  2: { rewrite (wrapped_local_reject cfg rq c c1 st Hk Hd Hg Hc Hr). exact Hok1. }
  destruct (Z_lt_le_dec 0 (reset st - t_ttl (times rq))) as [Ht|Ht].
  2: { rewrite (wrapped_local_hit_elapsed cfg rq c c1 st Hk Hd Hg Hc Hr Ht).
       exact Hok1. }
  rewrite (wrapped_local_hit cfg rq c c1 st Hk Hd Hg Hc Hr Ht).
  cbn [fst snd]. apply cache_ok_set; [exact Hok1|cbn [reset]; lia].
Qed.

Lemma serve_preserves_cache_ok (cfg : RateLimitOptions) (rqs : list Request) :
  Forall (fun rq => t_ttl (times rq) <= t_set (times rq)) rqs ->
  forall c : Cache, cache_ok c -> cache_ok (snd (serve cfg rqs c)).
Proof.
  induction 1 as [|rq rqs Hrq _ IH]; intros c Hok; [exact Hok|].
  simpl. pose proof (wrapped_preserves_cache_ok cfg rq c Hok Hrq) as H1.
  destruct (wrapped cfg rq c) as [[o c1] l].
  specialize (IH c1 H1).
  destruct (serve cfg rqs c1) as [os c2]. exact IH.
Qed.

(** ** Runs of requests for one key *)

(** Once a key has an entry with [m] units left in an open window, the next
    [m] requests for it are served from the cache and the one after them is
    turned away, all without a remote call. *)
Lemma countdown (cfg : RateLimitOptions) (k : Key) :
  disableLRU cfg = false -> truthy k = true ->
  forall (hits : list Request) (c : Cache) (n : Node) (last : Request),
    cache_ok c -> cache_find c k = Some n ->
    Forall (inWindow k (reset (nvalue n))) hits ->
    inWindow k (reset (nvalue n)) last ->
    List.length hits = Z.to_nat (remaining (nvalue n)) ->
    exists rs rl c',
      serve cfg (hits ++ [last]) c = ((rs ++ [rl])%list, c') /\
      Forall allowedLocally rs /\
      List.length rs = List.length hits /\
      rejectedLocally cfg rl.
Proof.
  intros Hd Hk hits.
  induction hits as [|rq hits IH]; intros c n last Hok Hf Hall Hlast Hlen.
  - destruct Hlast as (Hkey & Hg & Hc & _).
    simpl in Hlen.
    assert (Hrem : remaining (nvalue n) <= 0) by lia.
    pose proof (cache_get_live c k n _ Hok Hf Hg) as Hget.
    rewrite <- Hkey in Hk, Hget.
    simpl. rewrite (wrapped_local_reject cfg last c _ _ Hk Hd Hget Hc Hrem).
    exists [], (Responded 429 (getErrorMessage cfg),
                [EvCacheGet (rkey last); EvConsoleError (rkey last)]),
           (n :: cache_remove c (rkey last)).
    repeat split; constructor.
  - inversion Hall as [|? ? Hrq Hrest]; subst.
    destruct Hrq as (Hkey & Hg & Hc & Ht & Hs).
    simpl in Hlen.
    assert (Hrem : 0 < remaining (nvalue n)) by lia.
    pose proof (cache_get_live c _ n _ Hok Hf Hg) as Hget.
    assert (Httl : 0 < reset (nvalue n) - t_ttl (times rq)) by lia.
    pose proof Hk as Hk'. rewrite <- Hkey in Hk', Hget.
    simpl.
    rewrite (wrapped_local_hit cfg rq c _ _ Hk' Hd Hget Hc Hrem Httl).
    set (v := mkState (remaining (nvalue n) - 1) (reset (nvalue n))).
    set (c2 := cache_set _ _ v _ _).
    assert (Hok2 : cache_ok c2).
    { apply cache_ok_set.
      - pose proof (cache_ok_get c (rkey rq) (t_get (times rq)) Hok) as H.
        rewrite Hget in H. exact H.
      - simpl. lia. }
    assert (Hf2 : cache_find c2 (rkey rq) =
                  Some (mkNode (rkey rq) v
                          (t_set (times rq) + (reset (nvalue n) - t_ttl (times rq))))).
    { apply cache_find_set_same. exact Httl. }
    rewrite Hkey in Hf2.
    destruct (IH c2 _ last Hok2 Hf2) as (rs & rl & c' & Hserve & Hrs & Hlr & Hrl).
    + exact Hrest.
    + exact Hlast.
    + simpl. rewrite Z2Nat.inj_sub by lia. simpl Z.to_nat. lia.
    + rewrite Hserve.
      eexists (_ :: rs), rl, c'. simpl.
      repeat split; try assumption.
      * constructor; [|exact Hrs]. split; reflexivity.
      * now rewrite Hlr.
      * apply Hrl.
      * apply Hrl.
      * apply Hrl.
Qed.

(** ** Rejection from the cache *)

(** C1 (as amended).  With the cache enabled: (i) a request whose key has a
    cache entry with no units left and its reset in the future is answered
    429, with the configured or default message, without a remote call and
    without running the handler; (ii) after a remote allow that reports
    [r] units left for a key, the next [r - 1] requests for that key within
    the window are served from the cache and the request after them is
    rejected, again without a remote call.  The run of allowed requests has
    length [max r 1], which is at most [requestsLimit] when the remote store
    reports at most [requestsLimit]. *)
Theorem exhausted_key_rejected_locally (cfg : RateLimitOptions) (c : Cache) :
  disableLRU cfg = false -> cache_ok c ->
  (forall (rq : Request) (n : Node),
      truthy (rkey rq) = true ->
      cache_find c (rkey rq) = Some n -> remaining (nvalue n) = 0 ->
      t_get (times rq) < reset (nvalue n) ->
      t_check (times rq) < reset (nvalue n) ->
      exists c', wrapped cfg rq c =
                 (Responded 429 (getErrorMessage cfg), c',
                  [EvCacheGet (rkey rq); EvConsoleError (rkey rq)]))
  /\
  (forall (rq0 : Request) (l : LimitResponse) (hits : list Request) (last : Request),
      reachesRemote cfg c rq0 ->
      remoteAnswers rq0 l -> success l = true ->
      t_ttl (times rq0) < l_reset l -> t_ttl (times rq0) <= t_set (times rq0) ->
      Forall (inWindow (rkey rq0) (l_reset l)) hits ->
      inWindow (rkey rq0) (l_reset l) last ->
      List.length hits = Z.to_nat (l_remaining l - 1) ->
      (exists r0 rs rl c',
          serve cfg (rq0 :: hits ++ [last]) c = ((r0 :: rs ++ [rl])%list, c') /\
          allowedRemotely r0 /\
          Forall allowedLocally rs /\
          List.length rs = List.length hits /\
          rejectedLocally cfg rl) /\
      (1 <= requestsLimit cfg -> l_remaining l <= requestsLimit cfg ->
       Z.of_nat (1 + List.length hits) <= requestsLimit cfg)).
Proof.
  intros Hd Hok. split.
  - intros rq n Hk Hf Hrem Hg Hc.
    pose proof (cache_get_live c _ n _ Hok Hf Hg) as Hget.
    eexists. apply (wrapped_local_reject cfg rq c _ _ Hk Hd Hget Hc). lia.
  - intros rq0 l hits last Hreach Hans Hs Httl Hset Hall Hlast Hlen. split.
    + assert (Hpos : 0 < l_reset l - t_ttl (times rq0)) by lia.
      simpl. rewrite (wrapped_reaches_remote cfg rq0 c Hreach).
      rewrite (remoteStep_allowed_cached cfg rq0 _ l Hans Hs Hd Hpos).
      set (v := mkState (l_remaining l - 1) (l_reset l)).
      set (c1 := cache_set _ _ v _ _).
      assert (Hok1 : cache_ok c1).
      { apply cache_ok_set; [now apply cacheAtRemote_ok|simpl; lia]. }
      assert (Hf1 : cache_find c1 (rkey rq0) =
                    Some (mkNode (rkey rq0) v
                            (t_set (times rq0) + (l_reset l - t_ttl (times rq0))))).
      { apply cache_find_set_same. exact Hpos. }
      destruct Hreach as [Hk _].
      destruct (countdown cfg (rkey rq0) Hd Hk hits c1 _ last Hok1 Hf1 Hall Hlast Hlen)
        as (rs & rl & c' & Hserve & Hrs & Hlr & Hrl).
      rewrite Hserve.
      eexists _, rs, rl, c'. split; [reflexivity|].
      split; [|split; [exact Hrs|split; [exact Hlr|exact Hrl]]].
      unfold allowedRemotely, logAtRemote. simpl snd. rewrite Hd.
      split; reflexivity.
    + intros H1 H2. rewrite Hlen. lia.
Qed.

Lemma exhausted_key_rejected_locally_witness :
  (exists c',
      wrapped cfgTwo (request 3000 RemoteThrows Completes)
        [mkNode keyK (mkState 0 61000) 61000] =
      (Responded 429 (getErrorMessage cfgTwo), c',
       [EvCacheGet keyK; EvConsoleError keyK])) /\
  (exists r0 rs rl c',
      serve cfgTwo
        (request 1000 (allow 2) Completes ::
         [request 2000 RemoteThrows Completes] ++
         [request 3000 RemoteThrows Completes]) [] =
      ((r0 :: rs ++ [rl])%list, c') /\
      allowedRemotely r0 /\
      Forall allowedLocally rs /\
      List.length rs = 1%nat /\
      rejectedLocally cfgTwo rl).
Proof.
  split.
  - assert (Hok : cache_ok [mkNode keyK (mkState 0 61000) 61000]).
    { repeat constructor. simpl. lia. }
    apply (proj1 (exhausted_key_rejected_locally cfgTwo _ eq_refl Hok)
             (request 3000 RemoteThrows Completes)
             (mkNode keyK (mkState 0 61000) 61000));
      try reflexivity; simpl; lia.
  - apply (proj2 (exhausted_key_rejected_locally cfgTwo [] eq_refl (Forall_nil _))
             (request 1000 (allow 2) Completes) (mkLimit true 2 61000 NoPending)
             [request 2000 RemoteThrows Completes]
             (request 3000 RemoteThrows Completes)).
    + split; [reflexivity|right; exact I].
    + split; [reflexivity|discriminate].
    + reflexivity.
    + simpl; lia.
    + simpl; lia.
    + repeat constructor; simpl; lia.
    + repeat split; simpl; lia.
    + reflexivity.
Defined.

(** With a limit of five, the key's first request is allowed by the remote
    store, which reports four units left; the second request, coming after
    this run of one allowed request, is served from the cache and reaches
    the handler: it is not rejected. *)
Lemma second_request_of_five_is_served :
  serve cfgDefault
    [request 1000 (allow 4) Completes; request 2000 RemoteThrows Completes] [] =
  ([(Forwarded,
     [EvCacheGet keyK; EvRemote keyK;
      EvCacheSet keyK (mkState 3 61000) 60000; EvHandler]);
    (Forwarded,
     [EvCacheGet keyK; EvCacheSet keyK (mkState 2 61000) 59000; EvHandler])],
   [mkNode keyK (mkState 2 61000) 61000]) /\
  1 <= requestsLimit cfgDefault /\
  ~ rejectedLocally cfgDefault
      (Forwarded,
       [EvCacheGet keyK; EvCacheSet keyK (mkState 2 61000) 59000; EvHandler]).
Proof.
  split; [reflexivity|]. split; [simpl; lia|].
  intros [H _]. discriminate H.
Qed.

(** ** Caching after a remote allow *)

(** C2.  When the remote call allows the request and the cache is enabled,
    the state written to the cache carries the reported count minus one; with
    a limit of two and a remote reply of two units left, the first request
    goes remote and leaves one unit in the cache, the second is served from
    the cache and leaves zero, the third is rejected from the cache without a
    remote call. *)
Theorem remote_allow_caches_one_less (cfg : RateLimitOptions) (rq : Request)
    (c : Cache) (l : LimitResponse) :
  disableLRU cfg = false -> reachesRemote cfg c rq ->
  remoteAnswers rq l -> success l = true ->
  0 < l_reset l - t_ttl (times rq) ->
  (exists c',
      wrapped cfg rq c =
      (returnInsideTry (callResult (handlerB rq)), c',
       [EvCacheGet (rkey rq); EvRemote (rkey rq);
        EvCacheSet (rkey rq) (mkState (l_remaining l - 1) (l_reset l))
          (l_reset l - t_ttl (times rq));
        EvHandler]) /\
      option_map nvalue (cache_find c' (rkey rq)) =
      Some (mkState (l_remaining l - 1) (l_reset l))) /\
  serve cfgTwo
    [request 1000 (allow 2) Completes;
     request 2000 RemoteThrows Completes;
     request 3000 RemoteThrows Completes] [] =
  ([(Forwarded,
     [EvCacheGet keyK; EvRemote keyK;
      EvCacheSet keyK (mkState 1 61000) 60000; EvHandler]);
    (Forwarded,
     [EvCacheGet keyK; EvCacheSet keyK (mkState 0 61000) 59000; EvHandler]);
    (Responded 429 (MsgTooManyRequests 2 60),
     [EvCacheGet keyK; EvConsoleError keyK])],
   [mkNode keyK (mkState 0 61000) 61000]).
Proof.
  intros Hd Hreach Hans Hs Hpos. split; [|reflexivity].
  rewrite (wrapped_reaches_remote cfg rq c Hreach).
  rewrite (remoteStep_allowed_cached cfg rq _ l Hans Hs Hd Hpos).
  unfold logAtRemote. rewrite Hd.
  eexists. split; [reflexivity|].
  rewrite cache_find_set_same by exact Hpos. reflexivity.
Qed.

Lemma remote_allow_caches_one_less_witness :
  (exists c',
      wrapped cfgTwo (request 1000 (allow 2) Completes) [] =
      (Forwarded, c',
       [EvCacheGet keyK; EvRemote keyK;
        EvCacheSet keyK (mkState 1 61000) 60000; EvHandler]) /\
      option_map nvalue (cache_find c' keyK) = Some (mkState 1 61000)) /\
  serve cfgTwo
    [request 1000 (allow 2) Completes;
     request 2000 RemoteThrows Completes;
     request 3000 RemoteThrows Completes] [] =
  ([(Forwarded,
     [EvCacheGet keyK; EvRemote keyK;
      EvCacheSet keyK (mkState 1 61000) 60000; EvHandler]);
    (Forwarded,
     [EvCacheGet keyK; EvCacheSet keyK (mkState 0 61000) 59000; EvHandler]);
    (Responded 429 (MsgTooManyRequests 2 60),
     [EvCacheGet keyK; EvConsoleError keyK])],
   [mkNode keyK (mkState 0 61000) 61000]).
Proof.
  refine (remote_allow_caches_one_less cfgTwo
            (request 1000 (allow 2) Completes) []
            (mkLimit true 2 61000 NoPending)
            eq_refl _ _ eq_refl eq_refl).
  - split; [reflexivity|right; exact I].
  - split; [reflexivity|discriminate].
Defined.

(** A local hit never stores a negative count: the branch is guarded by
    [remaining > 0]. *)
Lemma local_hit_caches_nonnegative (cfg : RateLimitOptions) (rq : Request)
    (c c1 : Cache) (st : RateLimitState) (k : Key) (v : RateLimitState) (ttl : Z) :
  truthy (rkey rq) = true -> disableLRU cfg = false ->
  cache_get c (rkey rq) (t_get (times rq)) = (Some st, c1) ->
  t_check (times rq) < reset st ->
  In (EvCacheSet k v ttl) (snd (wrapped cfg rq c)) -> 0 <= remaining v.
Proof.
  intros Hk Hd Hg Hc.
  destruct (Z_lt_le_dec 0 (remaining st)) as [Hr|Hr].
  - destruct (Z_lt_le_dec 0 (reset st - t_ttl (times rq))) as [Ht|Ht].
    + rewrite (wrapped_local_hit cfg rq c c1 st Hk Hd Hg Hc Hr Ht). simpl.
      intros [H|[H|[H|[]]]]; try discriminate.
      injection H as _ <- _. simpl. lia.
    + rewrite (wrapped_local_hit_elapsed cfg rq c c1 st Hk Hd Hg Hc Hr Ht). simpl.
      intros [H|[H|[]]]; discriminate.
  - rewrite (wrapped_local_reject cfg rq c c1 st Hk Hd Hg Hc Hr). simpl.
    intros [H|[H|[]]]; discriminate.
Qed.

(** C3.  With a limit of one, the remote store allows the key's first request
    and reports zero units left; the wrapper stores the count -1. *)
Theorem remote_allow_caches_negative_count :
  wrapped cfgOne (request 1000 (allow 0) Completes) [] =
  (Forwarded,
   [mkNode keyK (mkState (-1) 61000) 61000],
   [EvCacheGet keyK; EvRemote keyK;
    EvCacheSet keyK (mkState (-1) 61000) 60000; EvHandler]) /\
  option_map (fun n => remaining (nvalue n))
    (cache_find [mkNode keyK (mkState (-1) 61000) 61000] keyK) = Some (-1).
Proof.
  split; reflexivity.
Qed.

(** ** A remote refusal *)

(** C4 (as amended).  When the remote call reports that the ceiling was
    exceeded, the wrapper answers 429 with the configured or default message,
    the handler is not run and nothing is written to the cache: the cache is
    as the lookup left it, every key reads as before, and a key without an
    entry still has none. *)
Theorem remote_refusal_not_cached (cfg : RateLimitOptions) (rq : Request)
    (c : Cache) (l : LimitResponse) :
  reachesRemote cfg c rq -> remoteAnswers rq l -> success l = false ->
  exists log,
    wrapped cfg rq c =
    (Responded 429 (getErrorMessage cfg), cacheAtRemote cfg c rq, log) /\
    cacheWrites log = 0%nat /\ handlerCalls log = 0%nat /\
    (forall (k' : Key) (t : Z),
        t_get (times rq) <= t ->
        cache_live (cacheAtRemote cfg c rq) k' t = cache_live c k' t) /\
    (cache_find c (rkey rq) = None -> cacheAtRemote cfg c rq = c).
Proof.
  intros Hreach Hans Hs.
  rewrite (wrapped_reaches_remote cfg rq c Hreach).
  rewrite (remoteStep_exceeded cfg rq _ l Hans Hs).
  eexists. split; [reflexivity|].
  split; [|split; [|split]].
  - unfold logAtRemote. destruct (disableLRU cfg); reflexivity.
  - unfold logAtRemote. destruct (disableLRU cfg); reflexivity.
  - intros k' t Ht. now apply cacheAtRemote_view.
  - apply cacheAtRemote_absent.
Qed.

Lemma remote_refusal_not_cached_witness :
  exists log,
    wrapped cfgDefault (request 1000 deny Completes) [] =
    (Responded 429 (getErrorMessage cfgDefault),
     cacheAtRemote cfgDefault [] (request 1000 deny Completes), log) /\
    cacheWrites log = 0%nat /\ handlerCalls log = 0%nat /\
    (forall (k' : Key) (t : Z),
        t_get (times (request 1000 deny Completes)) <= t ->
        cache_live (cacheAtRemote cfgDefault [] (request 1000 deny Completes)) k' t =
        cache_live [] k' t) /\
    (cache_find [] (rkey (request 1000 deny Completes)) = None ->
     cacheAtRemote cfgDefault [] (request 1000 deny Completes) = []).
Proof.
  refine (remote_refusal_not_cached cfgDefault (request 1000 deny Completes) []
            (mkLimit false 0 61000 NoPending) _ _ eq_refl).
  - split; [reflexivity|right; exact I].
  - split; [reflexivity|discriminate].
Defined.

(** The remote store refuses the first request of a key and reports a reset
    sixty seconds ahead; afterwards the cache holds no state for the key. *)
Lemma refused_state_not_cached :
  wrapped cfgDefault (request 1000 deny Completes) [] =
  (Responded 429 (MsgTooManyRequests 5 60), [],
   [EvCacheGet keyK; EvRemote keyK; EvConsoleError keyK]) /\
  1000 < 61000 /\
  cache_find [] keyK = None.
Proof.
  split; [reflexivity|]. split; [lia|reflexivity].
Qed.

(** ** Elapsed windows *)

Ltac no_write :=
  intros ? ? ? Hin; cbn [In app] in Hin;
  repeat (destruct Hin as [Hin|Hin]; try discriminate Hin);
  try contradiction.

Lemma remoteStep_writes_within_window (cfg : RateLimitOptions) (rq : Request)
    (c : Cache) :
  withinWindow rq (snd (remoteStep cfg rq c)).
Proof.
  destruct (remote rq) as [|l] eqn:Hr.
  { rewrite remoteStep_fails by (unfold remoteFails; now rewrite Hr).
    cbn [snd]. no_write. }
  destruct (pending l) eqn:Hp;
    try (rewrite remoteStep_fails by (unfold remoteFails; now rewrite Hr);
         cbn [snd]; no_write).
  all: assert (Hans : remoteAnswers rq l)
    by (split; [exact Hr|rewrite Hp; discriminate]).
  all: destruct (success l) eqn:Hs;
    [|rewrite (remoteStep_exceeded cfg rq c l Hans Hs); cbn [snd]; no_write].
  all: destruct (disableLRU cfg) eqn:Hd;
    [rewrite (remoteStep_allowed_uncached cfg rq c l Hans Hs Hd); cbn [snd]; no_write|].
  all: destruct (Z_lt_le_dec 0 (l_reset l - t_ttl (times rq))) as [Ht|Ht];
    [rewrite (remoteStep_allowed_cached cfg rq c l Hans Hs Hd Ht)
    |rewrite (remoteStep_allowed_elapsed cfg rq c l Hans Hs Hd Ht); cbn [snd]; no_write].
  all: cbn [snd]; intros k v ttl Hin; cbn [In] in Hin;
    destruct Hin as [Hin|[Hin|[Hin|[]]]]; try discriminate Hin;
    injection Hin as _ <- <-; cbn [reset]; split; [reflexivity|exact Ht].
Qed.

Lemma cache_writes_within_window (cfg : RateLimitOptions) (rq : Request) (c : Cache) :
  withinWindow rq (snd (wrapped cfg rq c)).
Proof.
  destruct (truthy (rkey rq)) eqn:Hk.
  2: { rewrite (wrapped_empty_key cfg rq c Hk). cbn [snd]. no_write. }
  assert (Hremote : reachesRemote cfg c rq -> withinWindow rq (snd (wrapped cfg rq c))).
  { intros Hreach. rewrite (wrapped_reaches_remote cfg rq c Hreach).
    pose proof (remoteStep_writes_within_window cfg rq (cacheAtRemote cfg c rq)) as H.
    destruct (remoteStep cfg rq (cacheAtRemote cfg c rq)) as [[o c2] l].
    cbn [snd] in *. intros k v ttl Hin. apply (H k v ttl).
    apply in_app_or in Hin. destruct Hin as [Hin|Hin]; [|exact Hin].
    unfold logAtRemote in Hin.
    destruct (disableLRU cfg); cbn [In] in Hin;
      [contradiction|destruct Hin as [Hin|[]]; discriminate Hin]. }
  destruct (disableLRU cfg) eqn:Hd.
  { apply Hremote. split; [exact Hk|now left]. }
  destruct (cache_get c (rkey rq) (t_get (times rq))) as [[st|] c1] eqn:Hg.
  2: { apply Hremote. split; [exact Hk|right]. unfold misses. now rewrite Hg. }
  destruct (Z_lt_le_dec (t_check (times rq)) (reset st)) as [Hc|Hc].
  2: { apply Hremote. split; [exact Hk|right]. unfold misses. now rewrite Hg. }
  destruct (Z_lt_le_dec 0 (remaining st)) as [Hr|Hr].
  2: { rewrite (wrapped_local_reject cfg rq c c1 st Hk Hd Hg Hc Hr).
       cbn [snd]. no_write. }
  destruct (Z_lt_le_dec 0 (reset st - t_ttl (times rq))) as [Ht|Ht].
  2: { rewrite (wrapped_local_hit_elapsed cfg rq c c1 st Hk Hd Hg Hc Hr Ht).
       cbn [snd]. no_write. }
  rewrite (wrapped_local_hit cfg rq c c1 st Hk Hd Hg Hc Hr Ht).
  cbn [snd]. intros k v ttl Hin. cbn [In] in Hin.
  destruct Hin as [Hin|[Hin|[Hin|[]]]]; try discriminate Hin.
  injection Hin as _ <- <-. cbn [reset]. split; [reflexivity|exact Ht].
Qed.

(** C5.  Whenever [updateCacheAndProceed] computes a time to live that is not
    positive, it leaves the cache as it is and goes on to the handler; and
    every write the wrapper makes is for a state whose reset lies after the
    clock reading that the time to live was computed from. *)
Theorem elapsed_window_not_cached (cfg : RateLimitOptions) (h : HandlerBehaviour)
    (tm : Times) (rem rst : Z) (k : Key) (c : Cache) :
  rst - t_ttl tm <= 0 ->
  updateCacheAndProceed h tm rem rst k c = (callResult h, c, [EvHandler]) /\
  (forall (rq : Request) (c0 : Cache) (k' : Key) (v : RateLimitState) (ttl : Z),
      In (EvCacheSet k' v ttl) (snd (wrapped cfg rq c0)) ->
      t_ttl (times rq) < reset v).
Proof.
  intros H. split.
  - unfold updateCacheAndProceed, handler, bind, ret, emit.
    apply Z.ltb_ge in H. rewrite H. reflexivity.
  - intros rq c0 k' v ttl Hin.
    destruct (cache_writes_within_window cfg rq c0 k' v ttl Hin). lia.
Qed.

Lemma elapsed_window_not_cached_witness :
  updateCacheAndProceed Completes (atTime 61000) 3 61000 keyK
    [mkNode keyK (mkState 4 61000) 61000] =
  (callResult Completes, [mkNode keyK (mkState 4 61000) 61000], [EvHandler]) /\
  (forall (rq : Request) (c0 : Cache) (k' : Key) (v : RateLimitState) (ttl : Z),
      In (EvCacheSet k' v ttl) (snd (wrapped cfgDefault rq c0)) ->
      t_ttl (times rq) < reset v).
Proof.
  apply (elapsed_window_not_cached cfgDefault Completes (atTime 61000) 3 61000 keyK
           [mkNode keyK (mkState 4 61000) 61000]).
  simpl. lia.
Defined.

(** ** Failure of the remote store *)

(** C6.  If the remote call throws on a request that reached it, the wrapper
    answers 500 with the error text "Internal Server Error": the handler is
    not run, nothing is written to the cache, every key reads as before, the
    cache is untouched when the key had no entry, and the outcome is a
    response, neither the handler's result nor an escaping exception. *)
Theorem remote_failure_answers_500 (cfg : RateLimitOptions) (rq : Request) (c : Cache) :
  reachesRemote cfg c rq -> remoteFails rq ->
  exists log,
    wrapped cfg rq c =
    (Responded 500 (MsgText "Internal Server Error"), cacheAtRemote cfg c rq, log) /\
    handlerCalls log = 0%nat /\ cacheWrites log = 0%nat /\ remoteCalls log = 1%nat /\
    (forall (k' : Key) (t : Z),
        t_get (times rq) <= t ->
        cache_live (cacheAtRemote cfg c rq) k' t = cache_live c k' t) /\
    (cache_find c (rkey rq) = None ->
     cacheAtRemote cfg c rq = c /\ cache_find (cacheAtRemote cfg c rq) (rkey rq) = None).
Proof.
  intros Hreach Hfail.
  rewrite (wrapped_reaches_remote cfg rq c Hreach).
  rewrite (remoteStep_fails cfg rq _ Hfail).
  eexists. split; [reflexivity|].
  unfold logAtRemote.
  repeat split; try (destruct (disableLRU cfg); reflexivity).
  - now apply cacheAtRemote_view.
  - now apply cacheAtRemote_absent.
  - rewrite cacheAtRemote_absent; assumption.
Qed.

Lemma remote_failure_answers_500_witness :
  exists log,
    wrapped cfgDefault (request 1000 RemoteThrows Completes) [] =
    (Responded 500 (MsgText "Internal Server Error"),
     cacheAtRemote cfgDefault [] (request 1000 RemoteThrows Completes), log) /\
    handlerCalls log = 0%nat /\ cacheWrites log = 0%nat /\ remoteCalls log = 1%nat /\
    (forall (k' : Key) (t : Z),
        t_get (times (request 1000 RemoteThrows Completes)) <= t ->
        cache_live (cacheAtRemote cfgDefault [] (request 1000 RemoteThrows Completes)) k' t =
        cache_live [] k' t) /\
    (cache_find [] (rkey (request 1000 RemoteThrows Completes)) = None ->
     cacheAtRemote cfgDefault [] (request 1000 RemoteThrows Completes) = [] /\
     cache_find (cacheAtRemote cfgDefault [] (request 1000 RemoteThrows Completes))
       (rkey (request 1000 RemoteThrows Completes)) = None).
Proof.
  refine (remote_failure_answers_500 cfgDefault
            (request 1000 RemoteThrows Completes) [] _ _).
  - split; [reflexivity|right; exact I].
  - exact I.
Defined.

(** ** Construction *)

(** The Upstash branch checks its two variables before anything is built. *)
Lemma upstash_without_credentials_throws (options : PartialOptions) (env : Env)
    (cfg : RateLimitOptions) :
  RateLimitOptionsSchema_parse options = Some cfg -> provider cfg = upstash ->
  missing (UPSTASH_URL env) || missing (UPSTASH_TOKEN env) = true ->
  withRateLimit options env = inl MissingUpstashEnv.
Proof.
  intros Hp Hu Hm. unfold withRateLimit. rewrite Hp, Hu, Hm. reflexivity.
Qed.

(** C7.  With the provider [vercelKV] selected and no credential set in the
    environment, construction succeeds and returns a wrapper. *)
Theorem vercelKV_without_credentials_constructs :
  withRateLimit (mkPartial None None None (Some vercelKV) None)
                (mkEnv None None None None) =
  inr (mkWrapper (mkOptions 60 5 false vercelKV None) VercelKv []).
Proof.
  reflexivity.
Qed.

(** ** The key *)

(** An empty string from the extractor is answered 400; nothing else
    happens. *)
Lemma empty_string_key_answers_400 (cfg : RateLimitOptions) (rq : Request)
    (c : Cache) :
  rkey rq = KString "" ->
  wrapped cfg rq c =
  (Responded 400 (MsgText "Unable to determine rate limit key"), c, []).
Proof.
  intros H. apply wrapped_empty_key. rewrite H. reflexivity.
Qed.

(** C8.  An asynchronous extractor hands the wrapper a promise; when that
    promise settles to the empty string the request is not answered 400: the
    remote store is called and the handler runs. *)
Theorem promise_of_empty_key_not_answered_400 :
  wrapped cfgDefault
    (mkRequest (KPromise 0 "") (atTime 1000) (allow 4) Completes) [] =
  (Forwarded,
   [mkNode (KPromise 0 "") (mkState 3 61000) 61000],
   [EvCacheGet (KPromise 0 ""); EvRemote (KPromise 0 "");
    EvCacheSet (KPromise 0 "") (mkState 3 61000) 60000; EvHandler]).
Proof.
  reflexivity.
Qed.

(** ** The cache switched off *)

Lemma remoteStep_uncached (cfg : RateLimitOptions) (rq : Request) (c : Cache) :
  disableLRU cfg = true ->
  exists o log,
    remoteStep cfg rq c = (o, c, log) /\
    remoteCalls log = 1%nat /\ cacheOps log = 0%nat.
Proof.
  intros Hd. unfold remoteStep. unfold_wrapper. rewrite Hd.
  destruct (remote rq) as [|l]; [eexists _, _; repeat split|].
  destruct (pending l), (success l); simpl;
    eexists _, _; repeat split.
Qed.

(** C9.  With [disableLRU = true], every request with a non-empty key makes
    exactly one remote call and neither reads nor writes the cache, whatever
    requests came before it and whatever the cache holds. *)
Theorem uncached_requests_always_go_remote (cfg : RateLimitOptions)
    (rqs : list Request) (c : Cache) :
  disableLRU cfg = true ->
  Forall (fun rq => truthy (rkey rq) = true) rqs ->
  snd (serve cfg rqs c) = c /\
  List.length (fst (serve cfg rqs c)) = List.length rqs /\
  Forall (fun r => remoteCalls (snd r) = 1%nat /\ cacheOps (snd r) = 0%nat)
    (fst (serve cfg rqs c)).
Proof.
  intros Hd Hall. induction Hall as [|rq rqs Hk _ IH]; simpl.
  - repeat split. constructor.
  - assert (Hreach : reachesRemote cfg c rq) by (split; [exact Hk|now left]).
    rewrite (wrapped_reaches_remote cfg rq c Hreach).
    unfold cacheAtRemote, logAtRemote. rewrite Hd.
    destruct (remoteStep_uncached cfg rq c Hd) as (o & log & -> & Hr & Hc).
    destruct (serve cfg rqs c) as [os c2]. simpl in *.
    destruct IH as (-> & Hlen & Hos).
    repeat split; try congruence.
    constructor; [simpl; split; assumption|exact Hos].
Qed.

Lemma uncached_requests_always_go_remote_witness :
  snd (serve cfgNoCache
         [request 1000 (allow 4) Completes; request 2000 deny Completes;
          request 2000 RemoteThrows Completes]
         [mkNode keyK (mkState 0 61000) 61000]) =
  [mkNode keyK (mkState 0 61000) 61000] /\
  List.length
    (fst (serve cfgNoCache
            [request 1000 (allow 4) Completes; request 2000 deny Completes;
             request 2000 RemoteThrows Completes]
            [mkNode keyK (mkState 0 61000) 61000])) = 3%nat /\
  Forall (fun r => remoteCalls (snd r) = 1%nat /\ cacheOps (snd r) = 0%nat)
    (fst (serve cfgNoCache
            [request 1000 (allow 4) Completes; request 2000 deny Completes;
             request 2000 RemoteThrows Completes]
            [mkNode keyK (mkState 0 61000) 61000])).
Proof.
  apply (uncached_requests_always_go_remote cfgNoCache
           [request 1000 (allow 4) Completes; request 2000 deny Completes;
            request 2000 RemoteThrows Completes]
           [mkNode keyK (mkState 0 61000) 61000]).
  - reflexivity.
  - repeat constructor.
Defined.

(** ** Exceptions of the handler *)

(** C10 (as amended).  An exception that the handler throws while it is
    called is treated asymmetrically: after a local cache hit the call is
    outside the [try], so the exception escapes; after a remote allow the
    call is inside the [try], so the exception is caught and answered 500.
    A handler that returns a promise which rejects is not affected by the
    [try]: the promise is returned without being awaited and its rejection
    escapes on both paths. *)
Theorem handler_exception_by_path (cfg : RateLimitOptions) (rq : Request) (c : Cache) :
  truthy (rkey rq) = true ->
  (forall (st : RateLimitState) (c1 : Cache),
      disableLRU cfg = false ->
      cache_get c (rkey rq) (t_get (times rq)) = (Some st, c1) ->
      t_check (times rq) < reset st -> 0 < remaining st ->
      fst (fst (wrapped cfg rq c)) =
      match handlerB rq with
      | Completes => Forwarded
      | ThrowsSync => Rejected
      | RejectsAsync => Rejected
      end /\
      handlerCalls (snd (wrapped cfg rq c)) = 1%nat) /\
  (forall (l : LimitResponse),
      disableLRU cfg = true \/ misses c rq ->
      remoteAnswers rq l -> success l = true ->
      fst (fst (wrapped cfg rq c)) =
      match handlerB rq with
      | Completes => Forwarded
      | ThrowsSync => Responded 500 (MsgText "Internal Server Error")
      | RejectsAsync => Rejected
      end /\
      handlerCalls (snd (wrapped cfg rq c)) = 1%nat).
Proof.
  intros Hk. split.
  - intros st c1 Hd Hg Hc Hr.
    destruct (Z_lt_le_dec 0 (reset st - t_ttl (times rq))) as [Ht|Ht].
    + rewrite (wrapped_local_hit cfg rq c c1 st Hk Hd Hg Hc Hr Ht).
      destruct (handlerB rq); split; reflexivity.
    + rewrite (wrapped_local_hit_elapsed cfg rq c c1 st Hk Hd Hg Hc Hr Ht).
      destruct (handlerB rq); split; reflexivity.
  - intros l Hm Hans Hs.
    rewrite (wrapped_reaches_remote cfg rq c (conj Hk Hm)).
    unfold logAtRemote.
    destruct (disableLRU cfg) eqn:Hd.
    + rewrite (remoteStep_allowed_uncached cfg rq _ l Hans Hs Hd).
      destruct (handlerB rq); split; reflexivity.
    + destruct (Z_lt_le_dec 0 (l_reset l - t_ttl (times rq))) as [Ht|Ht].
      * rewrite (remoteStep_allowed_cached cfg rq _ l Hans Hs Hd Ht).
        destruct (handlerB rq); split; reflexivity.
      * rewrite (remoteStep_allowed_elapsed cfg rq _ l Hans Hs Hd Ht).
        destruct (handlerB rq); split; reflexivity.
Qed.

Lemma handler_exception_by_path_witness :
  (fst (fst (wrapped cfgDefault (request 2000 RemoteThrows ThrowsSync)
               [mkNode keyK (mkState 3 61000) 61000])) = Rejected /\
   handlerCalls (snd (wrapped cfgDefault (request 2000 RemoteThrows ThrowsSync)
                        [mkNode keyK (mkState 3 61000) 61000])) = 1%nat) /\
  (fst (fst (wrapped cfgDefault (request 1000 (allow 4) ThrowsSync) [])) =
   Responded 500 (MsgText "Internal Server Error") /\
   handlerCalls (snd (wrapped cfgDefault (request 1000 (allow 4) ThrowsSync) [])) = 1%nat).
Proof.
  split.
  - refine (proj1 (handler_exception_by_path cfgDefault
                     (request 2000 RemoteThrows ThrowsSync)
                     [mkNode keyK (mkState 3 61000) 61000] eq_refl)
              (mkState 3 61000) [mkNode keyK (mkState 3 61000) 61000]
              eq_refl eq_refl _ _); simpl; lia.
  - refine (proj2 (handler_exception_by_path cfgDefault
                     (request 1000 (allow 4) ThrowsSync) [] eq_refl)
              (mkLimit true 4 61000 NoPending) _ _ eq_refl).
    + right. exact I.
    + split; [reflexivity|discriminate].
Defined.

(** An asynchronous handler whose promise rejects, called after a cache miss
    that the remote store allowed: the rejection escapes, no 500 is sent. *)
Lemma async_rejection_escapes_the_try :
  wrapped cfgDefault (request 1000 (allow 4) RejectsAsync) [] =
  (Rejected,
   [mkNode keyK (mkState 3 61000) 61000],
   [EvCacheGet keyK; EvRemote keyK;
    EvCacheSet keyK (mkState 3 61000) 60000; EvHandler]) /\
  Rejected <> Responded 500 (MsgText "Internal Server Error").
Proof.
  split; [reflexivity|discriminate].
Qed.

(** * Further properties of the wrapper *)

(** ** Every request takes one of the nine paths *)

Lemma remoteStep_served (cfg : RateLimitOptions) (rq : Request) (c : Cache) :
  reachesRemote cfg c rq ->
  Served cfg rq c
    (let '(o, c2, l) := remoteStep cfg rq (cacheAtRemote cfg c rq) in
     (o, c2, (logAtRemote cfg rq ++ l)%list)).
Proof.
  intros Hreach.
  destruct (remote rq) as [|l] eqn:Hr.
  { rewrite remoteStep_fails by (unfold remoteFails; now rewrite Hr).
    apply SvRemoteFails; [exact Hreach|unfold remoteFails; now rewrite Hr]. }
  destruct (pending l) eqn:Hp;
    try (rewrite remoteStep_fails by (unfold remoteFails; now rewrite Hr);
         apply SvRemoteFails; [exact Hreach|unfold remoteFails; now rewrite Hr]).
  all: assert (Hans : remoteAnswers rq l)
    by (split; [exact Hr|rewrite Hp; discriminate]).
  all: destruct (success l) eqn:Hs;
    [|rewrite (remoteStep_exceeded cfg rq _ l Hans Hs);
      now apply (SvRemoteRefused cfg rq c l)].
  all: destruct (disableLRU cfg) eqn:Hd;
    [rewrite (remoteStep_allowed_uncached cfg rq _ l Hans Hs Hd);
     now apply (SvRemoteAllowedUncached cfg rq c l)|].
  all: destruct (Z_lt_le_dec 0 (l_reset l - t_ttl (times rq))) as [Ht|Ht];
    [rewrite (remoteStep_allowed_cached cfg rq _ l Hans Hs Hd Ht);
     now apply (SvRemoteAllowedCached cfg rq c l)
    |rewrite (remoteStep_allowed_elapsed cfg rq _ l Hans Hs Hd Ht);
     now apply (SvRemoteAllowedElapsed cfg rq c l)].
Qed.

Lemma wrapped_served (cfg : RateLimitOptions) (rq : Request) (c : Cache) :
  Served cfg rq c (wrapped cfg rq c).
Proof.
  destruct (truthy (rkey rq)) eqn:Hk.
  2: { rewrite (wrapped_empty_key cfg rq c Hk). now apply SvKeyError. }
  assert (Hremote : reachesRemote cfg c rq -> Served cfg rq c (wrapped cfg rq c)).
  { intros Hreach. rewrite (wrapped_reaches_remote cfg rq c Hreach).
    now apply remoteStep_served. }
  destruct (disableLRU cfg) eqn:Hd.
  { apply Hremote. split; [exact Hk|now left]. }
  destruct (cache_get c (rkey rq) (t_get (times rq))) as [[st|] c1] eqn:Hg.
  2: { apply Hremote. split; [exact Hk|right]. unfold misses. now rewrite Hg. }
  destruct (Z_lt_le_dec (t_check (times rq)) (reset st)) as [Hc|Hc].
  2: { apply Hremote. split; [exact Hk|right]. unfold misses. now rewrite Hg. }
  destruct (Z_lt_le_dec 0 (remaining st)) as [Hr|Hr].
  2: { rewrite (wrapped_local_reject cfg rq c c1 st Hk Hd Hg Hc Hr).
       now apply (SvLocalReject cfg rq c st c1). }
  destruct (Z_lt_le_dec 0 (reset st - t_ttl (times rq))) as [Ht|Ht].
  - rewrite (wrapped_local_hit cfg rq c c1 st Hk Hd Hg Hc Hr Ht).
    now apply (SvLocalHit cfg rq c st c1).
  - rewrite (wrapped_local_hit_elapsed cfg rq c c1 st Hk Hd Hg Hc Hr Ht).
    now apply (SvLocalHitElapsed cfg rq c st c1).
Qed.

(** Case analysis on the path a request takes. *)
Ltac by_path cfg rq c :=
  let H := fresh "Hpath" in
  pose proof (wrapped_served cfg rq c) as H;
  destruct (wrapped cfg rq c) as [[?o ?c'] ?log];
  inversion H; subst; clear H.

Ltac count_events :=
  unfold handlerCalls, remoteCalls, cacheWrites, cacheOps, count, logAtRemote;
  repeat match goal with
    | |- context [disableLRU ?cfg] => destruct (disableLRU cfg)
    end;
  cbn [app filter isHandler isRemote isCacheSet isCacheOp List.length].

(** ** What the wrapper answers *)

(** The wrapper itself sends only three responses: 400 for a falsy key, 429
    with the configured or default message together with a console error, and
    500 after a remote call. *)
Theorem responses_are_400_429_500 (cfg : RateLimitOptions) (rq : Request) (c : Cache)
    (status : Z) (msg : Message) :
  fst (fst (wrapped cfg rq c)) = Responded status msg ->
  (status = 400 /\ msg = MsgText "Unable to determine rate limit key" /\
   truthy (rkey rq) = false) \/
  (status = 429 /\ msg = getErrorMessage cfg /\
   In (EvConsoleError (rkey rq)) (snd (wrapped cfg rq c))) \/
  (status = 500 /\ msg = MsgText "Internal Server Error" /\
   remoteCalls (snd (wrapped cfg rq c)) = 1%nat).
Proof.
  by_path cfg rq c; cbn [fst snd]; intros Hout;
    try match type of Hout with
        | context [callResult] =>
            destruct (handlerB rq); simpl in Hout; try discriminate Hout
        end;
    injection Hout as <- <-.
  - left. repeat split. assumption.
  - right; left. repeat split. right; now left.
  - right; right. repeat split. count_events; reflexivity.
  - right; left. repeat split. apply in_or_app. right. right; now left.
  - right; right. repeat split. count_events; reflexivity.
  - right; right. repeat split. count_events; reflexivity.
  - right; right. repeat split. count_events; reflexivity.
Qed.

Lemma responses_are_400_429_500_witness :
  (429 = 400 /\ getErrorMessage cfgTwo = MsgText "Unable to determine rate limit key" /\
   truthy (rkey (request 3000 RemoteThrows Completes)) = false) \/
  (429 = 429 /\ getErrorMessage cfgTwo = getErrorMessage cfgTwo /\
   In (EvConsoleError (rkey (request 3000 RemoteThrows Completes)))
      (snd (wrapped cfgTwo (request 3000 RemoteThrows Completes)
              [mkNode keyK (mkState 0 61000) 61000]))) \/
  (429 = 500 /\ getErrorMessage cfgTwo = MsgText "Internal Server Error" /\
   remoteCalls (snd (wrapped cfgTwo (request 3000 RemoteThrows Completes)
                       [mkNode keyK (mkState 0 61000) 61000])) = 1%nat).
Proof.
  apply (responses_are_400_429_500 cfgTwo (request 3000 RemoteThrows Completes)
           [mkNode keyK (mkState 0 61000) 61000] 429 (getErrorMessage cfgTwo)).
  reflexivity.
Defined.

(** The answer is 400 exactly when the key is falsy, and then nothing else
    happens: no lookup, no remote call, no handler call, the cache is
    untouched. *)
Theorem key_error_iff_falsy_key (cfg : RateLimitOptions) (rq : Request) (c : Cache) :
  (fst (fst (wrapped cfg rq c)) = keyError <-> truthy (rkey rq) = false) /\
  (truthy (rkey rq) = false -> wrapped cfg rq c = (keyError, c, [])).
Proof.
  split; [|apply wrapped_empty_key].
  split.
  - by_path cfg rq c; cbn [fst]; intros Hout;
      try (destruct (handlerB rq); simpl in Hout);
      try discriminate Hout; try assumption.
  - intros Hk. rewrite (wrapped_empty_key cfg rq c Hk). reflexivity.
Qed.

(** ** What one request does *)

(** Serving one request calls the handler at most once, calls the remote
    store at most once, writes the cache at most once and touches it at most
    twice. *)
Theorem effects_at_most_once (cfg : RateLimitOptions) (rq : Request) (c : Cache) :
  (handlerCalls (snd (wrapped cfg rq c)) <= 1)%nat /\
  (remoteCalls (snd (wrapped cfg rq c)) <= 1)%nat /\
  (cacheWrites (snd (wrapped cfg rq c)) <= 1)%nat /\
  (cacheOps (snd (wrapped cfg rq c)) <= 2)%nat.
Proof.
  by_path cfg rq c; cbn [snd]; count_events; repeat split; lia.
Qed.

(** The remote store is called exactly when the key is truthy and either the
    cache is switched off or the lookup gives no state whose window is still
    open; otherwise it is not called at all. *)
Theorem remote_called_iff_no_usable_state (cfg : RateLimitOptions) (rq : Request)
    (c : Cache) :
  (remoteCalls (snd (wrapped cfg rq c)) = 1%nat <-> reachesRemote cfg c rq) /\
  (remoteCalls (snd (wrapped cfg rq c)) = 0%nat <-> ~ reachesRemote cfg c rq).
Proof.
  assert (Hlocal : forall st c1,
             disableLRU cfg = false ->
             cache_get c (rkey rq) (t_get (times rq)) = (Some st, c1) ->
             t_check (times rq) < reset st -> ~ reachesRemote cfg c rq).
  { intros st c1 Hd Hg Hc [_ [Hd'|Hm]]; [congruence|].
    unfold misses in Hm. rewrite Hg in Hm. simpl in Hm. lia. }
  assert (Hcases :
            (remoteCalls (snd (wrapped cfg rq c)) = 1%nat /\ reachesRemote cfg c rq) \/
            (remoteCalls (snd (wrapped cfg rq c)) = 0%nat /\ ~ reachesRemote cfg c rq)).
  { by_path cfg rq c; cbn [snd];
      first [ left; split; [count_events; reflexivity|assumption]
            | right; split;
              [count_events; reflexivity
              |first [eapply Hlocal; eassumption|intros [Hk _]; congruence]] ]. }
  destruct Hcases as [[H1 H2]|[H1 H2]]; rewrite H1; split; split; intros H;
    first [discriminate H|assumption|reflexivity|contradiction].
Qed.

(** A 400 or a 429 is sent without running the handler; the handler's own
    result is passed on only when the handler ran, once, and completed; and a
    handler that completes never makes the wrapper's promise reject. *)
Theorem handler_and_outcome (cfg : RateLimitOptions) (rq : Request) (c : Cache) :
  (forall msg : Message,
      fst (fst (wrapped cfg rq c)) = Responded 400 msg \/
      fst (fst (wrapped cfg rq c)) = Responded 429 msg ->
      handlerCalls (snd (wrapped cfg rq c)) = 0%nat) /\
  (fst (fst (wrapped cfg rq c)) = Forwarded ->
   handlerCalls (snd (wrapped cfg rq c)) = 1%nat /\ handlerB rq = Completes) /\
  (handlerB rq = Completes -> fst (fst (wrapped cfg rq c)) <> Rejected).
Proof.
  by_path cfg rq c; cbn [fst snd]; (split; [|split]);
    try (intros msg [Hout|Hout]);
    try (intros Hout);
    try (destruct (handlerB rq) eqn:Hh; simpl in *);
    try discriminate;
    try (count_events; first [reflexivity|split; reflexivity]).
Qed.

(** A 500 is sent only when the remote call (or its pending promise) failed,
    or when the handler threw while it was called after a remote allow; never
    on a request answered from the cache. *)
Theorem server_error_causes (cfg : RateLimitOptions) (rq : Request) (c : Cache) :
  fst (fst (wrapped cfg rq c)) = serverError ->
  reachesRemote cfg c rq /\
  (remoteFails rq \/
   (handlerB rq = ThrowsSync /\
    exists l : LimitResponse, remoteAnswers rq l /\ success l = true)).
Proof.
  by_path cfg rq c; cbn [fst]; intros Hout;
    try (destruct (handlerB rq) eqn:Hh; simpl in Hout);
    try discriminate Hout;
    (split; [assumption|]);
    first [left; assumption | right; split; [reflexivity|eexists; split; eassumption]].
Qed.

Lemma server_error_causes_witness :
  reachesRemote cfgDefault [] (request 1000 (allow 4) ThrowsSync) /\
  (remoteFails (request 1000 (allow 4) ThrowsSync) \/
   (handlerB (request 1000 (allow 4) ThrowsSync) = ThrowsSync /\
    exists l : LimitResponse,
      remoteAnswers (request 1000 (allow 4) ThrowsSync) l /\ success l = true)).
Proof.
  apply (server_error_causes cfgDefault (request 1000 (allow 4) ThrowsSync) []).
  reflexivity.
Defined.

(** ** More on the cache *)



Lemma cache_get_found (c c1 : Cache) (k : Key) (t : Z) (st : RateLimitState) :
  cache_get c k t = (Some st, c1) ->
  exists n, cache_find c k = Some n /\ st = nvalue n /\
            c1 = n :: cache_remove c k /\ Key_eqb (nkey n) k = true.
Proof.
  unfold cache_get. destruct (cache_find c k) as [n|] eqn:E; [|discriminate].
  destruct (isExpired n t); [discriminate|].
  intros H. injection H as <- <-. exists n. repeat split.
  eapply cache_find_key; eassumption.
Qed.








Section NodeInvariant.

Variable P : Node -> Prop.

Lemma Forall_cache_remove (c : Cache) (k : Key) :
  Forall P c -> Forall P (cache_remove c k).
Proof.
  unfold cache_remove. rewrite !Forall_forall.
  intros H n Hn. apply filter_In in Hn. apply H, Hn.
Qed.

Lemma Forall_cache_firstn (m : nat) (c : Cache) :
  Forall P c -> Forall P (firstn m c).
Proof.
  revert c. induction m as [|m IH]; intros c H; simpl; [constructor|].
  destruct c as [|n c]; [constructor|].
  inversion H; subst. constructor; auto.
Qed.

Lemma Forall_cache_get (c : Cache) (k : Key) (t : Z) :
  Forall P c -> Forall P (snd (cache_get c k t)).
Proof.
  intros H. unfold cache_get.
  destruct (cache_find c k) as [n|] eqn:E; [|exact H].
  destruct (isExpired n t); simpl.
  - now apply Forall_cache_remove.
  - constructor; [|now apply Forall_cache_remove].
    rewrite Forall_forall in H. apply H. eapply cache_find_In; eassumption.
Qed.

Lemma Forall_cache_set (c : Cache) (k : Key) (v : RateLimitState) (ttl now : Z) :
  Forall P c -> P (mkNode k v (now + ttl)) -> Forall P (cache_set c k v ttl now).
Proof.
  intros H Hv. unfold cache_set. destruct (ttl <=? 0); [exact H|].
  apply Forall_cache_firstn. constructor; [exact Hv|now apply Forall_cache_remove].
Qed.

Lemma Forall_cacheAtRemote (cfg : RateLimitOptions) (c : Cache) (rq : Request) :
  Forall P c -> Forall P (cacheAtRemote cfg c rq).
Proof.
  intros H. unfold cacheAtRemote.
  destruct (disableLRU cfg); [exact H|now apply Forall_cache_get].
Qed.

End NodeInvariant.

(** ** Writing and reading back *)

(** What [updateCacheAndProceed] writes is what the next lookup of the key
    returns, for as long as the window is open. *)
Theorem cached_state_read_back (h : HandlerBehaviour) (tm : Times) (rem rst : Z)
    (k : Key) (c : Cache) (t : Z) :
  0 < rst - t_ttl tm -> t_ttl tm <= t_set tm -> t < rst ->
  fst (cache_get (snd (fst (updateCacheAndProceed h tm rem rst k c))) k t) =
  Some (mkState rem rst).
Proof.
  intros Httl Hclock Ht.
  unfold updateCacheAndProceed, handler, cacheSet, bind, ret, emit.
  pose proof Httl as Hb. apply Z.ltb_lt in Hb. rewrite Hb. cbn [fst snd].
  unfold cache_get. rewrite cache_find_set_same by exact Httl.
  unfold isExpired. cbn [expiresAt nvalue].
  destruct (t_set tm + (rst - t_ttl tm) <? t) eqn:E; [|reflexivity].
  apply Z.ltb_lt in E. lia.
Qed.

Lemma cached_state_read_back_witness :
  fst (cache_get
         (snd (fst (updateCacheAndProceed Completes (atTime 1000) 3 61000 keyK [])))
         keyK 2000) =
  Some (mkState 3 61000).
Proof.
  apply (cached_state_read_back Completes (atTime 1000) 3 61000 keyK [] 2000);
    simpl; lia.
Defined.





(** In any cache built by serving requests from the empty cache, with a clock
    that does not run backwards, an entry whose window is still open is
    returned by the lookup: the cache's own expiry never hides it. *)
Theorem open_window_entry_is_live (cfg : RateLimitOptions) (rqs : list Request)
    (k : Key) (n : Node) (t : Z) :
  Forall clockOk rqs ->
  cache_find (snd (serve cfg rqs [])) k = Some n ->
  t < reset (nvalue n) ->
  fst (cache_get (snd (serve cfg rqs [])) k t) = Some (nvalue n).
Proof.
  intros Hclock Hf Ht.
  assert (Hok : cache_ok (snd (serve cfg rqs []))).
  { apply serve_preserves_cache_ok; [exact Hclock|constructor]. }
  rewrite (cache_get_live _ k n t Hok Hf Ht). reflexivity.
Qed.

Lemma open_window_entry_is_live_witness :
  fst (cache_get
         (snd (serve cfgDefault
                 [request 1000 (allow 4) Completes; request 2000 RemoteThrows Completes]
                 []))
         keyK 60999) =
  Some (nvalue (mkNode keyK (mkState 2 61000) 61000)).
Proof.
  apply (open_window_entry_is_live cfgDefault
           [request 1000 (allow 4) Completes; request 2000 RemoteThrows Completes]
           keyK (mkNode keyK (mkState 2 61000) 61000) 60999).
  - repeat constructor; unfold clockOk; simpl; lia.
  - reflexivity.
  - simpl. lia.
Defined.

(** ** Refusals are not remembered *)

(** A refusal by the remote store leaves no trace in the cache, so while the
    store keeps refusing a key that has no entry, every request for that key
    costs one remote call and is answered 429; the handler never runs. *)
Theorem refusals_always_go_remote (cfg : RateLimitOptions) (k : Key)
    (rqs : list Request) (c : Cache) :
  truthy k = true -> cache_find c k = None ->
  Forall (fun rq => rkey rq = k /\ refused rq) rqs ->
  snd (serve cfg rqs c) = c /\
  Forall (fun r => fst r = Responded 429 (getErrorMessage cfg) /\
                   remoteCalls (snd r) = 1%nat /\ handlerCalls (snd r) = 0%nat)
    (fst (serve cfg rqs c)).
Proof.
  intros Hk Hf Hall. induction Hall as [|rq rqs [Hkey (l & Hans & Hs)] _ IH]; simpl.
  - split; [reflexivity|constructor].
  - subst k.
    assert (Hreach : reachesRemote cfg c rq).
    { split; [exact Hk|right]. unfold misses, cache_get. now rewrite Hf. }
    rewrite (wrapped_reaches_remote cfg rq c Hreach).
    rewrite (remoteStep_exceeded cfg rq _ l Hans Hs).
    rewrite (cacheAtRemote_absent cfg c rq Hf).
    destruct (serve cfg rqs c) as [os c2]. cbn [fst snd] in *.
    destruct IH as [-> Hos]. split; [reflexivity|].
    constructor; [|exact Hos]. cbn [fst snd].
    split; [reflexivity|]. count_events; split; reflexivity.
Qed.

Lemma refusals_always_go_remote_witness :
  snd (serve cfgDefault
         [request 1000 deny Completes; request 2000 deny Completes] []) = [] /\
  Forall (fun r => fst r = Responded 429 (getErrorMessage cfgDefault) /\
                   remoteCalls (snd r) = 1%nat /\ handlerCalls (snd r) = 0%nat)
    (fst (serve cfgDefault
            [request 1000 deny Completes; request 2000 deny Completes] [])).
Proof.
  apply (refusals_always_go_remote cfgDefault keyK
           [request 1000 deny Completes; request 2000 deny Completes] []).
  - reflexivity.
  - reflexivity.
  - repeat constructor;
      exists (mkLimit false 0 61000 NoPending);
      (split; [split; [reflexivity|discriminate]|reflexivity]).
Defined.

(** ** Bounds on the cached count *)

Lemma local_hit_caches_nonnegative_witness :
  0 <= remaining (mkState 2 61000).
Proof.
  apply (local_hit_caches_nonnegative cfgDefault
           (request 2000 RemoteThrows Completes)
           [mkNode keyK (mkState 3 61000) 61000]
           [mkNode keyK (mkState 3 61000) 61000]
           (mkState 3 61000) keyK (mkState 2 61000) 59000).
  - reflexivity.
  - reflexivity.
  - reflexivity.
  - simpl. lia.
  - simpl. right. left. reflexivity.
Defined.

(** As long as the remote store never reports a negative count, no cached
    count is ever below -1. *)
Theorem cached_count_at_least_minus_one (cfg : RateLimitOptions)
    (rqs : list Request) (c : Cache) :
  Forall reportsNonnegative rqs ->
  Forall (fun n => -1 <= remaining (nvalue n)) c ->
  Forall (fun n => -1 <= remaining (nvalue n)) (snd (serve cfg rqs c)).
Proof.
  intros Hall. revert c.
  induction Hall as [|rq rqs Hrq _ IH]; intros c Hc; [exact Hc|].
  simpl.
  assert (H1 : Forall (fun n => -1 <= remaining (nvalue n))
                 (snd (fst (wrapped cfg rq c)))).
  { pose proof (Forall_cacheAtRemote _ cfg c rq Hc) as Hr.
    pose proof (Forall_cache_get _ c (rkey rq) (t_get (times rq)) Hc) as Hg.
    by_path cfg rq c; cbn [fst snd];
      repeat match goal with
        | H : cache_get _ _ _ = (_, _) |- _ => rewrite H in Hg; cbn [snd] in Hg; clear H
        end;
      try assumption.
    - apply Forall_cache_set; [assumption|]. cbn [nvalue remaining]. lia.
    - apply Forall_cache_set; [assumption|]. cbn [nvalue remaining].
      match goal with H : remoteAnswers _ _ |- _ => destruct H as [Hrem _] end.
      unfold reportsNonnegative in Hrq. rewrite Hrem in Hrq. lia. }
  destruct (wrapped cfg rq c) as [[o c1] l]. cbn [fst snd] in H1.
  specialize (IH c1 H1).
  destruct (serve cfg rqs c1) as [os c2]. exact IH.
Qed.

Lemma cached_count_at_least_minus_one_witness :
  Forall (fun n => -1 <= remaining (nvalue n))
    (snd (serve cfgOne
            [request 1000 (allow 0) Completes; request 2000 RemoteThrows Completes]
            [])).
Proof.
  apply (cached_count_at_least_minus_one cfgOne
           [request 1000 (allow 0) Completes; request 2000 RemoteThrows Completes] []).
  - repeat constructor. unfold reportsNonnegative. simpl. lia.
  - constructor.
Defined.

(** A request that makes no remote call never replenishes its key: if the
    key has an entry afterwards it had one before, with the same reset, and
    the count is the same or exactly one less. *)
Theorem local_service_never_replenishes (cfg : RateLimitOptions) (rq : Request)
    (c : Cache) (n' : Node) :
  remoteCalls (snd (wrapped cfg rq c)) = 0%nat ->
  cache_find (snd (fst (wrapped cfg rq c))) (rkey rq) = Some n' ->
  exists n : Node,
    cache_find c (rkey rq) = Some n /\
    reset (nvalue n') = reset (nvalue n) /\
    (remaining (nvalue n') = remaining (nvalue n) \/
     (0 < remaining (nvalue n) /\
      remaining (nvalue n') = remaining (nvalue n) - 1)).
Proof.
  by_path cfg rq c; cbn [fst snd]; intros Hno Hf;
    try (revert Hno; count_events; discriminate);
    try match goal with
        | H : cache_get _ _ _ = (Some _, _) |- _ =>
            destruct (cache_get_found _ _ _ _ _ H) as (n & Hn & -> & -> & Hkey)
        end.
  - exists n'. repeat split; [assumption|now left].
  - simpl in Hf. rewrite Hkey in Hf. injection Hf as <-.
    exists n. repeat split; [assumption|now left].
  - rewrite cache_find_set_same in Hf by assumption. injection Hf as <-.
    exists n. cbn [nvalue reset remaining]. repeat split; [assumption|].
    right. split; [assumption|reflexivity].
  - simpl in Hf. rewrite Hkey in Hf. injection Hf as <-.
    exists n. repeat split; [assumption|now left].
Qed.

Lemma local_service_never_replenishes_witness :
  exists n : Node,
    cache_find [mkNode keyK (mkState 3 61000) 61000]
      (rkey (request 2000 RemoteThrows Completes)) = Some n /\
    reset (nvalue (mkNode keyK (mkState 2 61000) 61000)) = reset (nvalue n) /\
    (remaining (nvalue (mkNode keyK (mkState 2 61000) 61000)) = remaining (nvalue n) \/
     (0 < remaining (nvalue n) /\
      remaining (nvalue (mkNode keyK (mkState 2 61000) 61000)) =
      remaining (nvalue n) - 1)).
Proof.
  apply (local_service_never_replenishes cfgDefault
           (request 2000 RemoteThrows Completes)
           [mkNode keyK (mkState 3 61000) 61000]
           (mkNode keyK (mkState 2 61000) 61000)); reflexivity.
Defined.

(** ** Options and construction *)

(** An empty [errorMessage] counts as none: the wrapper behaves exactly as
    with the default message. *)
Theorem empty_error_message_is_default (tf rl : Z) (d : bool) (p : Provider)
    (rq : Request) (c : Cache) :
  wrapped (mkOptions tf rl d p (Some "")) rq c =
  wrapped (mkOptions tf rl d p None) rq c.
Proof.
  reflexivity.
Qed.

(** A wrapper that was constructed is fully configured: its time frame and
    its limit are positive and are the caller's values or the defaults 60 and
    5, its cache is empty, and with the Upstash provider both credentials are
    set and non-empty and are the ones handed to the client. *)
Theorem constructed_wrapper_is_configured (options : PartialOptions) (env : Env)
    (w : Wrapper) :
  withRateLimit options env = inr w ->
  0 < timeframe (w_options w) /\ 0 < requestsLimit (w_options w) /\
  timeframe (w_options w) = withDefault 60 (p_timeframe options) /\
  requestsLimit (w_options w) = withDefault 5 (p_requestsLimit options) /\
  disableLRU (w_options w) = withDefault false (p_disableLRU options) /\
  provider (w_options w) = withDefault upstash (p_provider options) /\
  w_cache w = [] /\
  match provider (w_options w) with
  | upstash =>
      exists url token : string,
        UPSTASH_URL env = Some url /\ UPSTASH_TOKEN env = Some token /\
        url <> "" /\ token <> "" /\ w_client w = UpstashRedis url token
  | vercelKV => w_client w = VercelKv
  end.
Proof.
  unfold withRateLimit, RateLimitOptionsSchema_parse.
  destruct (0 <? withDefault 60 (p_timeframe options)) eqn:Ht; [|discriminate].
  destruct (0 <? withDefault 5 (p_requestsLimit options)) eqn:Hl; [|discriminate].
  apply Z.ltb_lt in Ht, Hl. cbn [andb provider].
  destruct (withDefault upstash (p_provider options)) eqn:Hp.
  - destruct (UPSTASH_URL env) as [url|]; [|discriminate].
    destruct (UPSTASH_TOKEN env) as [token|];
      [|simpl; rewrite orb_true_r; discriminate].
    simpl. destruct (String.eqb_spec url ""); [discriminate|].
    destruct (String.eqb_spec token ""); [discriminate|].
    simpl. intros H. injection H as <-. cbn.
    repeat split; try assumption.
    exists url, token. repeat split; assumption.
  - intros H. injection H as <-. cbn.
    repeat split; assumption.
Qed.

Lemma constructed_wrapper_is_configured_witness :
  0 < 60 /\ 0 < 100 /\
  60 = withDefault 60 None /\
  100 = withDefault 5 (Some 100) /\
  false = withDefault false None /\
  upstash = withDefault upstash None /\
  @nil Node = [] /\
  exists url token : string,
    Some "https://u" = Some url /\ Some "t" = Some token /\
    url <> "" /\ token <> "" /\ UpstashRedis "https://u" "t" = UpstashRedis url token.
Proof.
  apply (constructed_wrapper_is_configured
           (mkPartial None (Some 100) None None None)
           (mkEnv (Some "https://u") (Some "t") None None)
           (mkWrapper (mkOptions 60 100 false upstash None)
              (UpstashRedis "https://u" "t") [])).
  reflexivity.
Defined.

